(** * IPsec overhead calculator: validator and packet composer

    A shallow embedding of [validateForm] and [calculatePacket] from
    [src/App.tsx], of the option lists of the form and of the part of
    [buildChartAndSummary] that turns the fields into the boxes of the chart
    and the rows of the summary, and the properties of the specification
    proved (or refuted) against it.

    The packet size is read from the form field with [parseInt], which gives
    an integer or, for an emptied field, NaN.  A number is therefore an
    integer or NaN ([number]); NaN spreads through the arithmetic and every
    comparison with it is false.  The program only adds and subtracts
    numbers and divides by the block sizes 4, 8 and 16 before [Math.ceil],
    all of which is exact on integers in the safe range of a JavaScript
    number.  The two local variables of [calculatePacket]
    ([packetLength] and the array [packetDetails]) are threaded through a
    small state monad, so that the closures [setInnerdata] and [getPadSize]
    read like the source. *)

From Stdlib Require Import ZArith QArith Qround List String Bool Lia DecimalString.
Import ListNotations.
Open Scope string_scope.
Open Scope Z_scope.

Set Implicit Arguments.

(* ================================================================== *)
(** ** Numbers *)

(** A JavaScript number as the program meets it: an integer or NaN. *)
Inductive number :=
| Int (z : Z)
| NaN.

Coercion Int : Z >-> number.

Declare Scope number_scope.
Delimit Scope number_scope with num.
Bind Scope number_scope with number.

Definition nadd (a b : number) : number :=
  match a, b with
  | Int x, Int y => Int (x + y)
  | _, _ => NaN
  end.

Definition nsub (a b : number) : number :=
  match a, b with
  | Int x, Int y => Int (x - y)
  | _, _ => NaN
  end.

Definition nmul (a b : number) : number :=
  match a, b with
  | Int x, Int y => Int (x * y)
  | _, _ => NaN
  end.

(** [a < b] and [a > b]: false as soon as one side is NaN. *)
Definition nltb (a b : number) : bool :=
  match a, b with
  | Int x, Int y => x <? y
  | _, _ => false
  end.

Definition ngtb (a b : number) : bool :=
  match a, b with
  | Int x, Int y => x >? y
  | _, _ => false
  end.

Definition nleb (a b : number) : bool :=
  match a, b with
  | Int x, Int y => x <=? y
  | _, _ => false
  end.

(** The order of numbers as a proposition: NaN is below and above
    nothing. *)
Definition nle (a b : number) : Prop :=
  match a, b with
  | Int x, Int y => x <= y
  | _, _ => False
  end.

Definition nlt (a b : number) : Prop :=
  match a, b with
  | Int x, Int y => x < y
  | _, _ => False
  end.

Infix "+" := nadd : number_scope.
Infix "-" := nsub : number_scope.
Infix "*" := nmul : number_scope.
Infix "<?" := nltb : number_scope.
Infix ">?" := ngtb : number_scope.
Infix "<=?" := nleb : number_scope.
Infix "<=" := nle : number_scope.
Infix "<" := nlt : number_scope.
Notation "x <= y <= z" := (nle x y /\ nle y z) : number_scope.
Notation "x <= y < z" := (nle x y /\ nlt y z) : number_scope.

(** [Math.ceil(a / b)] on integers: the quotient is taken in the rationals
    and rounded up. *)
Definition ceilDivZ (a b : Z) : Z := Qceiling (inject_Z a / inject_Z b).

(** [Math.ceil(a / b)] on numbers. *)
Definition ceilDiv (a b : number) : number :=
  match a, b with
  | Int x, Int y => Int (ceilDivZ x y)
  | _, _ => NaN
  end.

(* ================================================================== *)
(** ** Data model *)

(** [interface PacketDetail]: a field of the packet. *)
Record PacketDetail := mkDetail {
  text  : string;
  bytes : number;
  group : option string
}.

Inductive EspEncryption :=
| EncrNone | ESP_DES_3DES | ESP_AES_128_192_256 | ESP_GCM_128_192_256 | ESP_NULL.

Inductive EspHmac :=
| InteNone | ESP_MD5_HMAC | ESP_SHA_HMAC | ESP_SHA_256 | ESP_SHA_384
| ESP_SHA_512 | ESP_GMAC_128_192_256.

Inductive AhHmac := AhNone | AH_MD5_HMAC | AH_SHA_HMAC.

Inductive TunnelMode := Tunnel | Transport.

Inductive IPVersion := IPv4 | IPv6.

(** The enumerations are string literal types in the source; only the IP
    version is ever printed into a label. *)
Definition ipName (v : IPVersion) : string :=
  match v with IPv4 => "IPv4" | IPv6 => "IPv6" end.

Record Transform := mkTransform {
  ahInte     : AhHmac;
  espEncr    : EspEncryption;
  espInte    : EspHmac;
  tunnelMode : TunnelMode
}.

Record TransportSetting := mkTransport {
  ipProtocol : IPVersion;
  natTraver  : bool
}.

Record TunnelSetting := mkTunnel {
  gre    : bool;
  greKey : bool
}.

Record IFormState := mkForm {
  packetSize    : number;
  transform     : Transform;
  transport     : TransportSetting;
  tunnelSetting : TunnelSetting
}.

Definition defaultFormValues : IFormState :=
  mkForm 100
         (mkTransform AhNone ESP_AES_128_192_256 ESP_SHA_HMAC Tunnel)
         (mkTransport IPv4 false)
         (mkTunnel false false).

Definition IPV4_HDR_SIZE : Z := 20.
Definition IPV6_HDR_SIZE : Z := 40.

(** Decidable equality on the enumerations ([===] on the literals). *)
Definition encr_eqb (a b : EspEncryption) : bool :=
  match a, b with
  | EncrNone, EncrNone | ESP_DES_3DES, ESP_DES_3DES
  | ESP_AES_128_192_256, ESP_AES_128_192_256
  | ESP_GCM_128_192_256, ESP_GCM_128_192_256 | ESP_NULL, ESP_NULL => true
  | _, _ => false
  end.

Definition inte_eqb (a b : EspHmac) : bool :=
  match a, b with
  | InteNone, InteNone | ESP_MD5_HMAC, ESP_MD5_HMAC
  | ESP_SHA_HMAC, ESP_SHA_HMAC | ESP_SHA_256, ESP_SHA_256
  | ESP_SHA_384, ESP_SHA_384 | ESP_SHA_512, ESP_SHA_512
  | ESP_GMAC_128_192_256, ESP_GMAC_128_192_256 => true
  | _, _ => false
  end.

Definition ah_eqb (a b : AhHmac) : bool :=
  match a, b with
  | AhNone, AhNone | AH_MD5_HMAC, AH_MD5_HMAC | AH_SHA_HMAC, AH_SHA_HMAC => true
  | _, _ => false
  end.

Definition mode_eqb (a b : TunnelMode) : bool :=
  match a, b with
  | Tunnel, Tunnel | Transport, Transport => true
  | _, _ => false
  end.

Definition ip_eqb (a b : IPVersion) : bool :=
  match a, b with
  | IPv4, IPv4 | IPv6, IPv6 => true
  | _, _ => false
  end.

(** [Array.prototype.includes] on a literal array of integrity names. *)
Definition includes (l : list EspHmac) (x : EspHmac) : bool :=
  existsb (inte_eqb x) l.

(** A number spliced into a template literal. *)
Definition showZ (n : Z) : string := NilZero.string_of_int (Z.to_int n).

(* ================================================================== *)
(** ** The validator *)

Definition validateForm (form : IFormState) : string :=
  let packetSize := form.(packetSize) in
  let ipHeaderSize :=
    if ip_eqb form.(transport).(ipProtocol) IPv4
    then IPV4_HDR_SIZE else IPV6_HDR_SIZE in
  let minPacketSize := ipHeaderSize + 8 in
  let maxPacketSize := 64000 in
  if (packetSize <? minPacketSize)%num || (packetSize >? maxPacketSize)%num then
    "Please enter a valid packet size between " ++ showZ minPacketSize
      ++ " and " ++ showZ maxPacketSize
  else if encr_eqb form.(transform).(espEncr) EncrNone
          && inte_eqb form.(transform).(espInte) InteNone
          && ah_eqb form.(transform).(ahInte) AhNone then
    "Packet must use an encryption/authentication algorithm."
  else if negb (includes [InteNone; ESP_GMAC_128_192_256]
                         form.(transform).(espInte))
          && encr_eqb form.(transform).(espEncr) EncrNone then
    "ESP integrity check can only be selected with an ESP encryption algorithm"
  else if encr_eqb form.(transform).(espEncr) ESP_GCM_128_192_256
          && negb (inte_eqb form.(transform).(espInte) InteNone) then
    "ESP-GCM provides both data confidentiality and integrity protection. Do not select a separate authentication algorithm."
  else if negb (encr_eqb form.(transform).(espEncr) EncrNone)
          && inte_eqb form.(transform).(espInte) ESP_GMAC_128_192_256 then
    "ESP-GMAC is an authentication-only algorithm and can not be selected with an encryption algorithm."
  else if negb (ah_eqb form.(transform).(ahInte) AhNone)
          && inte_eqb form.(transform).(espInte) ESP_GMAC_128_192_256 then
    "AH algorithms can not be selected with ESP-GMAC."
  else "".

(* ================================================================== *)
(** ** The local state of [calculatePacket] and its monad *)

Record Locals := mkLocals {
  packetLength  : number;
  packetDetails : list PacketDetail
}.

Definition M (A : Type) : Type := Locals -> A * Locals.

Definition ret {A} (a : A) : M A := fun s => (a, s).

Definition bind {A B} (m : M A) (k : A -> M B) : M B :=
  fun s => let (a, s') := m s in k a s'.

Declare Scope composer_scope.
Delimit Scope composer_scope with composer.

Notation "m1 ;; m2" := (bind m1 (fun _ => m2))
  (at level 61, right associativity) : composer_scope.
Notation "x <- m1 ;; m2" := (bind m1 (fun x => m2))
  (at level 61, m1 at next level, right associativity) : composer_scope.

Open Scope composer_scope.

(** [packetDetails.push(d1, ..., dn)] *)
Definition push (ds : list PacketDetail) : M unit :=
  fun s => (tt, mkLocals s.(packetLength) (s.(packetDetails) ++ ds)).

(** [packetLength += n] *)
Definition addLength (n : number) : M unit :=
  fun s => (tt, mkLocals (s.(packetLength) + n) s.(packetDetails)).

(** [packetLength = n] *)
Definition setLength (n : number) : M unit :=
  fun s => (tt, mkLocals n s.(packetDetails)).

(** reading [packetLength] *)
Definition getLength : M number := fun s => (s.(packetLength), s).

(** [if (c) { m }] without an else branch *)
Definition when (c : bool) (m : M unit) : M unit := if c then m else ret tt.

Definition exec {A} (m : M A) (s : Locals) : Locals := snd (m s).

(** Object literals with and without the optional [group]. *)
Definition field (t : string) (b : number) : PacketDetail := mkDetail t b None.
Definition grouped (t : string) (b : number) (g : string) : PacketDetail :=
  mkDetail t b (Some g).

(* ================================================================== *)
(** ** The composer *)

Definition getPadSize (packetLength blockSize : number) : number :=
  ceilDiv (packetLength + 2) blockSize * blockSize - (packetLength + 2).

Section Composer.

Variable form : IFormState.

Definition ipHeaderSize : Z :=
  if ip_eqb form.(transport).(ipProtocol) IPv4
  then IPV4_HDR_SIZE else IPV6_HDR_SIZE.

Definition ver : string := ipName form.(transport).(ipProtocol).

(** The closure [setInnerdata]. *)
Definition setInnerdata : M unit :=
  when form.(tunnelSetting).(gre)
    (when (mode_eqb form.(transform).(tunnelMode) Tunnel)
       (push [field ("New " ++ ver ++ " Header for GRE") ipHeaderSize]) ;;
     if form.(tunnelSetting).(greKey)
     then push [field "GRE Header + Tunnel Key" 8]
     else push [field "GRE Header" 4]) ;;
  when (form.(tunnelSetting).(gre)
        || mode_eqb form.(transform).(tunnelMode) Tunnel)
    (push [field ("Original " ++ ver ++ " Header") ipHeaderSize]) ;;
  push [field ("Original " ++ ver ++ " Payload")
              (form.(packetSize) - ipHeaderSize)].

(** [// Determine IP headers] *)
Definition determineIpHeaders : M unit :=
  if mode_eqb form.(transform).(tunnelMode) Tunnel then
    push [field ("New " ++ ver ++ " Header for IPsec") ipHeaderSize] ;;
    addLength form.(packetSize) ;;
    when form.(tunnelSetting).(gre) (addLength ipHeaderSize)
  else if form.(tunnelSetting).(gre) then
    push [field ("New " ++ ver ++ " Header for IPsec") ipHeaderSize] ;;
    addLength form.(packetSize)
  else
    push [field ("Original " ++ ver ++ " Header") ipHeaderSize] ;;
    setLength (form.(packetSize) - ipHeaderSize).

Definition natTraversal : M unit :=
  when form.(transport).(natTraver) (push [field "UDP Header (NAT-T)" 8]).

(** [// Calculate padding from GRE] *)
Definition grePadding : M unit :=
  when form.(tunnelSetting).(gre)
    (addLength 4 ;;
     when form.(tunnelSetting).(greKey) (addLength 4)).

(** [// Add Authentication Header] *)
Definition authenticationHeader : M unit :=
  when (negb (ah_eqb form.(transform).(ahInte) AhNone))
    (push [grouped "Next Header" 1 "AH Header";
           grouped "Payload" 1 "AH Header";
           grouped "Reserved" 2 "AH Header";
           grouped "SPI" 4 "AH Header";
           grouped "Sequence" 4 "AH Header"] ;;
     when (ah_eqb form.(transform).(ahInte) AH_MD5_HMAC)
       (push [field "AH Digest" 12]) ;;
     when (ah_eqb form.(transform).(ahInte) AH_SHA_HMAC)
       (push [field "AH Digest" 12]) ;;
     when (encr_eqb form.(transform).(espEncr) EncrNone
           && inte_eqb form.(transform).(espInte) InteNone)
       setInnerdata).

(** The pad field pushed after the inner data:
    [{ bytes: getPadSize(packetLength, b), group: "ESP Trailer", text: "ESP Pad" }] *)
Definition pushPad (blockSize : number) : M unit :=
  len <- getLength ;;
  push [grouped "ESP Pad" (getPadSize len blockSize) "ESP Trailer"].

(** [// ESP Header, Inner Data, and ESP Trailer], block by block:
    the [switch] on the cipher, *)
Definition espCipher : M unit :=
  match form.(transform).(espEncr) with
  | ESP_DES_3DES =>
      push [field "ESP IV" 8] ;; setInnerdata ;; pushPad 8
  | ESP_AES_128_192_256 =>
      push [field "ESP IV" 16] ;; setInnerdata ;; pushPad 16
  | ESP_GCM_128_192_256 =>
      push [field "ESP IV" 8] ;; setInnerdata ;; pushPad 4
  | ESP_NULL =>
      setInnerdata ;; pushPad 4
  | EncrNone => ret tt
  end.

(** the GMAC block that follows it, *)
Definition espGmac : M unit :=
  when (inte_eqb form.(transform).(espInte) ESP_GMAC_128_192_256)
    (push [field "ESP IV" 8] ;; setInnerdata ;; pushPad 4).

(** the ICV of the combined-mode algorithms, *)
Definition espCombinedIcv : M unit :=
  when (encr_eqb form.(transform).(espEncr) ESP_GCM_128_192_256
        || inte_eqb form.(transform).(espInte) ESP_GMAC_128_192_256)
    (push [grouped "ESP ICV" 16 "ESP Trailer"]).

(** and the [switch] on the integrity algorithm. *)
Definition espHmacIcv : M unit :=
  match form.(transform).(espInte) with
  | ESP_MD5_HMAC | ESP_SHA_HMAC => push [grouped "ESP ICV" 12 "ESP Trailer"]
  | ESP_SHA_256 => push [grouped "ESP ICV" 16 "ESP Trailer"]
  | ESP_SHA_384 => push [grouped "ESP ICV" 24 "ESP Trailer"]
  | ESP_SHA_512 => push [grouped "ESP ICV" 32 "ESP Trailer"]
  | InteNone | ESP_GMAC_128_192_256 => ret tt
  end.

Definition espTriggered : bool :=
  negb (encr_eqb form.(transform).(espEncr) EncrNone)
  || inte_eqb form.(transform).(espInte) ESP_GMAC_128_192_256.

Definition espSection : M unit :=
  when espTriggered
    (push [grouped "SPI" 4 "ESP Header"; grouped "Sequence" 4 "ESP Header"] ;;
     espCipher ;;
     espGmac ;;
     push [grouped "Pad Length" 1 "ESP Trailer";
           grouped "Next Header" 1 "ESP Trailer"] ;;
     espCombinedIcv ;;
     espHmacIcv).

(** [let packetLength = 0; const packetDetails = [];] *)
Definition initial : Locals := mkLocals 0 [].

(** The state after the header, NAT-T and GRE accounting, that is just
    before the [Authentication Header] block. *)
Definition lengthAccounting : M unit :=
  determineIpHeaders ;; natTraversal ;; grePadding.

Definition calculatePacketBody : M unit :=
  lengthAccounting ;; authenticationHeader ;; espSection.

Definition calculatePacket : list PacketDetail :=
  (exec calculatePacketBody initial).(packetDetails).

End Composer.

(* ================================================================== *)
(** ** What an action pushes and what it does to [packetLength] *)

Open Scope list_scope.

(** The fields an action pushes, and the length it leaves, when started with
    [packetLength = len]. *)
Definition emitted (m : M unit) (len : number) : list PacketDetail :=
  (exec m (mkLocals len [])).(packetDetails).

Definition lengthAfter (m : M unit) (len : number) : number :=
  (exec m (mkLocals len [])).(packetLength).

(** An action is framed when it only appends to [packetDetails] and neither
    reads nor rewrites what is already there. *)
Definition framed (m : M unit) : Prop :=
  forall s, exec m s =
            mkLocals (lengthAfter m s.(packetLength))
                     (s.(packetDetails) ++ emitted m s.(packetLength)).

(** The padding base: [packetLength] once the header, NAT-T and GRE
    accounting is done. *)
Definition paddingBase (form : IFormState) : number :=
  lengthAfter (lengthAccounting form) 0.

Definition sumBytes (ds : list PacketDetail) : number :=
  fold_right (fun d acc => d.(bytes) + acc)%num 0 ds.

Definition hasText (t : string) (d : PacketDetail) : bool :=
  String.eqb d.(text) t.

(** What one call of [setInnerdata] pushes. *)
Definition innerData (form : IFormState) : list PacketDetail :=
  emitted (setInnerdata form) 0.

(** The label of the payload field, pushed by [setInnerdata] only. *)
Definition payloadText (form : IFormState) : string :=
  ("Original " ++ ver form ++ " Payload")%string.

(* ================================================================== *)
(** ** The specification's vocabulary *)

(** Header size per IP version (section 3 of the specification). *)
Definition headerSize (v : IPVersion) : Z :=
  match v with IPv4 => 20 | IPv6 => 40 end.

(** The running length as the specification describes steps 1 to 3 of the
    composer: the packet size, one more header for tunnel with GRE, the
    header taken off in plain transport mode, and 4 or 8 bytes for GRE. *)
Definition stepsOneToThree (form : IFormState) : number :=
  ((match form.(transform).(tunnelMode) with
   | Tunnel =>
       form.(packetSize)
       + (if form.(tunnelSetting).(gre)
          then headerSize form.(transport).(ipProtocol) else 0)
   | Transport =>
       if form.(tunnelSetting).(gre) then form.(packetSize)
       else form.(packetSize) - headerSize form.(transport).(ipProtocol)
   end)
  + (if form.(tunnelSetting).(gre)
     then (if form.(tunnelSetting).(greKey) then 8 else 4) else 0))%num.

(** Block size of each cipher, as the specification lists them. *)
Definition blockSize (e : EspEncryption) : option Z :=
  match e with
  | ESP_DES_3DES => Some 8
  | ESP_AES_128_192_256 => Some 16
  | ESP_GCM_128_192_256 => Some 4
  | ESP_NULL => Some 4
  | EncrNone => None
  end.

(** The block sizes of the pads of one run: the cipher's, then 4 for the
    GMAC branch. *)
Definition padBlocks (form : IFormState) : list Z :=
  match blockSize form.(transform).(espEncr) with
  | Some b => [b]
  | None => []
  end
  ++ (if inte_eqb form.(transform).(espInte) ESP_GMAC_128_192_256
      then [4] else []).

Definition espPad (len : number) (blockSize : Z) : PacketDetail :=
  grouped "ESP Pad" (ceilDiv (len + 2) blockSize * blockSize - (len + 2))
          "ESP Trailer".

Definition espIcv (size : number) : PacketDetail :=
  grouped "ESP ICV" size "ESP Trailer".

(** Size of the ICV chosen by the integrity algorithm alone. *)
Definition hmacIcvSize (i : EspHmac) : option Z :=
  match i with
  | ESP_MD5_HMAC | ESP_SHA_HMAC => Some 12
  | ESP_SHA_256 => Some 16
  | ESP_SHA_384 => Some 24
  | ESP_SHA_512 => Some 32
  | InteNone | ESP_GMAC_128_192_256 => None
  end.

Definition isGcm (form : IFormState) : bool :=
  encr_eqb form.(transform).(espEncr) ESP_GCM_128_192_256.

Definition isGmac (form : IFormState) : bool :=
  inte_eqb form.(transform).(espInte) ESP_GMAC_128_192_256.

(* ================================================================== *)
(** ** The validator against the rules of the specification *)

(** The six rules of section 4.1, in the order they are listed. *)
Inductive Rule :=
| PacketSizeBounds | NoProtection | IntegrityWithoutCipher
| GcmWithIntegrity | GmacWithCipher | AhWithGmac.

Definition laterRules : list Rule :=
  [NoProtection; IntegrityWithoutCipher; GcmWithIntegrity; GmacWithCipher;
   AhWithGmac].

Definition rulesInOrder : list Rule := PacketSizeBounds :: laterRules.

Definition minPacketSize (form : IFormState) : Z :=
  headerSize form.(transport).(ipProtocol) + 8.

Definition maxPacketSize : Z := 64000.

(** [violates form r]: the configuration breaks rule [r], in the words of
    the specification. *)
Definition violates (form : IFormState) (r : Rule) : bool :=
  let enc := form.(transform).(espEncr) in
  let inte := form.(transform).(espInte) in
  let ah := form.(transform).(ahInte) in
  match r with
  | PacketSizeBounds =>
      negb ((minPacketSize form <=? form.(packetSize))%num
            && (form.(packetSize) <=? maxPacketSize)%num)
  | NoProtection =>
      encr_eqb enc EncrNone && inte_eqb inte InteNone && ah_eqb ah AhNone
  | IntegrityWithoutCipher =>
      negb (inte_eqb inte InteNone || inte_eqb inte ESP_GMAC_128_192_256)
      && encr_eqb enc EncrNone
  | GcmWithIntegrity =>
      encr_eqb enc ESP_GCM_128_192_256 && negb (inte_eqb inte InteNone)
  | GmacWithCipher =>
      inte_eqb inte ESP_GMAC_128_192_256 && negb (encr_eqb enc EncrNone)
  | AhWithGmac =>
      negb (ah_eqb ah AhNone) && inte_eqb inte ESP_GMAC_128_192_256
  end.

(** The message the validator gives for each rule. *)
Definition message (form : IFormState) (r : Rule) : string :=
  match r with
  | PacketSizeBounds =>
      ("Please enter a valid packet size between "
         ++ showZ (minPacketSize form) ++ " and " ++ showZ maxPacketSize)%string
  | NoProtection =>
      "Packet must use an encryption/authentication algorithm."
  | IntegrityWithoutCipher =>
      "ESP integrity check can only be selected with an ESP encryption algorithm"
  | GcmWithIntegrity =>
      "ESP-GCM provides both data confidentiality and integrity protection. Do not select a separate authentication algorithm."
  | GmacWithCipher =>
      "ESP-GMAC is an authentication-only algorithm and can not be selected with an encryption algorithm."
  | AhWithGmac =>
      "AH algorithms can not be selected with ESP-GMAC."
  end.

Definition firstViolation (form : IFormState) : option Rule :=
  find (violates form) rulesInOrder.

Definition laterRuleFires (form : IFormState) : bool :=
  existsb (violates form) laterRules.

(** The test of the packet size as the validator computes it. *)
Definition sizeRejected (form : IFormState) : bool :=
  ((form.(packetSize) <? ipHeaderSize form + 8)%num
   || (form.(packetSize) >? 64000)%num)%bool.

(** The same configuration with another packet size. *)
Definition withPacketSize (n : number) (form : IFormState) : IFormState :=
  mkForm n form.(transform) form.(transport) form.(tunnelSetting).

(** ** Predicates on the output *)

Definition nonneg (d : PacketDetail) : Prop := (0 <= d.(bytes))%num.

(** The payload field, which only [setInnerdata] pushes. *)
Definition isPayload (form : IFormState) : PacketDetail -> bool :=
  hasText (payloadText form).

Definition payloadField (form : IFormState) : PacketDetail :=
  field (payloadText form) (form.(packetSize) - ipHeaderSize form).

(** The configurations in which one of the two sections calls
    [setInnerdata]. *)
Definition innerDataReached (form : IFormState) : bool :=
  negb (encr_eqb form.(transform).(espEncr) EncrNone)
  || inte_eqb form.(transform).(espInte) ESP_GMAC_128_192_256
  || (inte_eqb form.(transform).(espInte) InteNone
      && negb (ah_eqb form.(transform).(ahInte) AhNone)).

(** At least one protection is configured. *)
Definition protectionConfigured (form : IFormState) : bool :=
  negb (encr_eqb form.(transform).(espEncr) EncrNone
        && inte_eqb form.(transform).(espInte) InteNone
        && ah_eqb form.(transform).(ahInte) AhNone).

(** The same configuration with the GRE key switched on or off. *)
Definition withGreKey (k : bool) (form : IFormState) : IFormState :=
  mkForm form.(packetSize) form.(transform) form.(transport)
         (mkTunnel form.(tunnelSetting).(gre) k).

(** How a field of the output with the key relates to the field at the same
    place without it, [len] being the padding base without the key. *)
Inductive keyDifference (len : number) : PacketDetail -> PacketDetail -> Prop :=
| kd_same d : keyDifference len d d
| kd_greHeader :
    keyDifference len (field "GRE Header + Tunnel Key" 8) (field "GRE Header" 4)
| kd_espPad b :
    keyDifference len
      (grouped "ESP Pad" (getPadSize (len + 4) b) "ESP Trailer")
      (grouped "ESP Pad" (getPadSize len b) "ESP Trailer").

(** The default configuration after the packet size field is emptied:
    [parseInt("")] is NaN. *)
Definition emptiedFieldFormValues : IFormState :=
  mkForm NaN
         (mkTransform AhNone ESP_AES_128_192_256 ESP_SHA_HMAC Tunnel)
         (mkTransport IPv4 false)
         (mkTunnel false false).

(** ESP integrity without a cipher and without AH. *)
Definition integrityOnlyFormValues : IFormState :=
  mkForm 100
         (mkTransform AhNone EncrNone ESP_SHA_HMAC Tunnel)
         (mkTransport IPv4 false)
         (mkTunnel false false).

(** The default configuration with GRE. *)
Definition greFormValues : IFormState :=
  mkForm 100
         (mkTransform AhNone ESP_AES_128_192_256 ESP_SHA_HMAC Tunnel)
         (mkTransport IPv4 false)
         (mkTunnel true false).

(** The GRE header, with or without the key. *)
Definition isGreHeader (d : PacketDetail) : bool :=
  String.prefix "GRE Header" d.(text).

(** Two fields differ in their size at most. *)
Definition sameButSize (a b : PacketDetail) : Prop :=
  a.(text) = b.(text) /\ a.(group) = b.(group).

(* ================================================================== *)
(** ** The option lists of the form *)

(** The literal of each value of the string literal types. *)
Definition espEncrName (e : EspEncryption) : string :=
  match e with
  | EncrNone => "None"
  | ESP_DES_3DES => "ESP-DES/3DES"
  | ESP_AES_128_192_256 => "ESP-AES-128/192/256"
  | ESP_GCM_128_192_256 => "ESP-GCM-128/192/256"
  | ESP_NULL => "ESP-NULL"
  end.

Definition espHmacName (i : EspHmac) : string :=
  match i with
  | InteNone => "None"
  | ESP_MD5_HMAC => "ESP-MD5-HMAC"
  | ESP_SHA_HMAC => "ESP-SHA-HMAC"
  | ESP_SHA_256 => "ESP-SHA-256"
  | ESP_SHA_384 => "ESP-SHA-384"
  | ESP_SHA_512 => "ESP-SHA-512"
  | ESP_GMAC_128_192_256 => "ESP-GMAC-128/192/256"
  end.

Definition ahHmacName (a : AhHmac) : string :=
  match a with
  | AhNone => "None"
  | AH_MD5_HMAC => "AH-MD5-HMAC"
  | AH_SHA_HMAC => "AH-SHA-HMAC"
  end.

Definition tunnelModeName (m : TunnelMode) : string :=
  match m with Tunnel => "Tunnel" | Transport => "Transport" end.

(** The arrays the select boxes are filled from. *)
Definition espEncrItems : list string :=
  ["None"; "ESP-DES/3DES"; "ESP-AES-128/192/256"; "ESP-GCM-128/192/256";
   "ESP-NULL"].

Definition espHmacItems : list string :=
  ["None"; "ESP-MD5-HMAC"; "ESP-SHA-HMAC"; "ESP-SHA-256"; "ESP-SHA-256";
   "ESP-SHA-512"; "ESP-GMAC-128/192/256"].

Definition ahHmacItems : list string := ["None"; "AH-MD5-HMAC"; "AH-SHA-HMAC"].

Definition tunnelModes : list string := ["Tunnel"; "Transport"].

Definition ipVersions : list string := ["IPv4"; "IPv6"].

(** How often a select box offers a value. *)
Definition offered (items : list string) (name : string) : nat :=
  List.length (filter (String.eqb name) items).

(** The same configuration with another value in one field, as the change
    handlers of the form build it. *)
Definition withNatTraver (n : bool) (form : IFormState) : IFormState :=
  mkForm form.(packetSize) form.(transform)
         (mkTransport form.(transport).(ipProtocol) n) form.(tunnelSetting).

(* ================================================================== *)
(** ** The boxes of the chart and the rows of the summary

    The first half of [buildChartAndSummary]: the colour map, the loop that
    merges the fields of a group into one box, and the row of the total.
    The widths of the rectangles of the chart are computed in floating point
    from the width of a DOM element and are not modelled. *)

Record BoxDetail := mkBoxDetail {
  itemText  : string;
  itemBytes : number
}.

(** [interface IBox] *)
Record IBox := mkBox {
  color   : option string;
  details : list BoxDetail;
  label   : string;
  size    : number
}.

(** [colorMap] is an object used as a dictionary from names to colours: an
    association list, on which an assignment replaces the value of a name
    that is there and adds the name otherwise.  (Names inherited from
    [Object.prototype] are not modelled; no label of a packet field is
    one.) *)
Definition ColorMap : Type := list (string * string).

Fixpoint lookup (m : ColorMap) (name : string) : option string :=
  match m with
  | [] => None
  | (k, v) :: rest => if String.eqb k name then Some v else lookup rest name
  end.

Fixpoint assign (name value : string) (m : ColorMap) : ColorMap :=
  match m with
  | [] => [(name, value)]
  | (k, v) :: rest =>
      if String.eqb k name then (k, value) :: rest
      else (k, v) :: assign name value rest
  end.

Definition colorMap (ipProtocol : string) : ColorMap :=
  let m0 := [ ("UDP Header (NAT-T)", "plum");
              ("AH Header", "lightskyblue");
              ("AH Digest", "lightblue");
              ("ESP Header", "lightgreen");
              ("ESP IV", "palegreen");
              ("GRE Header", "palevioletred");
              ("GRE Header + Tunnel Key", "palevioletred");
              ("ESP Trailer", "lightgreen") ]%string in
  let m1 := assign ("New " ++ ipProtocol ++ " Header for IPsec")%string
                   "navajowhite" m0 in
  let m2 := assign ("New " ++ ipProtocol ++ " Header for GRE")%string
                   "lightpink" m1 in
  let m3 := assign ("Original " ++ ipProtocol ++ " Header")%string
                   "khaki" m2 in
  assign ("Original " ++ ipProtocol ++ " Payload")%string "palegoldenrod" m3.

(** [if (packetDetail.group)]: a group that is absent or the empty string
    counts as no group. *)
Definition groupOf (d : PacketDetail) : option string :=
  match d.(group) with
  | Some g => if String.eqb g "" then None else Some g
  | None => None
  end.

(** [Array.prototype.findIndex], [None] standing for -1. *)
Fixpoint findIndex {A : Type} (p : A -> bool) (l : list A) : option nat :=
  match l with
  | [] => None
  | x :: rest =>
      if p x then Some 0%nat else option_map S (findIndex p rest)
  end.

(** In-place update of the element at an index. *)
Fixpoint modifyAt {A : Type} (i : nat) (f : A -> A) (l : list A) : list A :=
  match l, i with
  | [], _ => []
  | x :: rest, O => f x :: rest
  | x :: rest, S j => x :: modifyAt j f rest
  end.

(** [boxes[index].size += bytes; boxes[index].details.push(...)] *)
Definition addToBox (d : PacketDetail) (b : IBox) : IBox :=
  mkBox b.(color)
        (b.(details) ++ [mkBoxDetail d.(text) d.(bytes)])
        b.(label)
        (b.(size) + d.(bytes)).

(** One turn of the loop over [packetDetails], on [boxes] and
    [totalSize]. *)
Definition addDetail (colors : ColorMap) (acc : list IBox * number)
    (packetDetail : PacketDetail) : list IBox * number :=
  let (boxes, totalSize) := acc in
  let boxes' :=
    match groupOf packetDetail with
    | Some g =>
        match findIndex (fun v => String.eqb v.(label) g) boxes with
        | None =>
            boxes ++ [mkBox (lookup colors g)
                            [mkBoxDetail packetDetail.(text)
                                         packetDetail.(bytes)]
                            g
                            packetDetail.(bytes)]
        | Some index => modifyAt index (addToBox packetDetail) boxes
        end
    | None =>
        boxes ++ [mkBox (lookup colors packetDetail.(text))
                        []
                        packetDetail.(text)
                        packetDetail.(bytes)]
    end in
  (boxes', (totalSize + packetDetail.(bytes))%num).

(** [boxes] and [totalSize] after the loop. *)
Definition buildBoxes (colors : ColorMap) (packetDetails : list PacketDetail)
  : list IBox * number :=
  fold_left (addDetail colors) packetDetails ([], Int 0).

(** [colorMap[box.label] || "white"], the fill of a rectangle. *)
Definition chartFill (colors : ColorMap) (box : IBox) : string :=
  match lookup colors box.(label) with
  | Some c => if String.eqb c "" then "white" else c
  | None => "white"
  end.

(** The rows of the summary table: the boxes and the row of the total
    pushed after them. *)
Definition summaryRows (colors : ColorMap) (packetDetails : list PacketDetail)
  : list IBox :=
  let (boxes, totalSize) := buildBoxes colors packetDetails in
  boxes ++ [mkBox None [] "Total IPsec Packet Size" totalSize].

(** What [App] hands to [buildChartAndSummary] once the effect has run. *)
Definition appBoxes (form : IFormState) : list IBox :=
  fst (buildBoxes (colorMap (ipName form.(transport).(ipProtocol)))
                  (calculatePacket form)).

Definition appSummary (form : IFormState) : list IBox :=
  summaryRows (colorMap (ipName form.(transport).(ipProtocol)))
              (calculatePacket form).

(** ** Vocabulary for the boxes *)

Definition sumSizes (boxes : list IBox) : number :=
  fold_right (fun b acc => b.(size) + acc)%num 0 boxes.

Definition hasGroup (g : string) (d : PacketDetail) : bool :=
  match groupOf d with
  | Some g' => String.eqb g' g
  | None => false
  end.

Definition hasLabel (g : string) (b : IBox) : bool := String.eqb b.(label) g.

Definition itemOf (d : PacketDetail) : BoxDetail :=
  mkBoxDetail d.(text) d.(bytes).

(** The name under which a field is shown: its group, else its text. *)
Definition shownAs (d : PacketDetail) : string :=
  match groupOf d with
  | Some g => g
  | None => d.(text)
  end.

(** The map has a colour for the name, other than the fallback. *)
Definition painted (colors : ColorMap) (name : string) : bool :=
  match lookup colors name with
  | Some c => negb (String.eqb c "") && negb (String.eqb c "white")
  | None => false
  end.

(** The row of a group in the summary: the fields of the group in order. *)
Definition groupRow (colors : ColorMap) (g : string) (l : list PacketDetail)
  : list IBox :=
  match l with
  | [] => []
  | _ :: _ => [mkBox (lookup colors g) (map itemOf l) g (sumBytes l)]
  end.

(** The box of a field without a group. *)
Definition plainBox (colors : ColorMap) (d : PacketDetail) : IBox :=
  mkBox (lookup colors d.(text)) [] d.(text) d.(bytes).

Definition isPlain (d : PacketDetail) : bool :=
  match groupOf d with Some _ => false | None => true end.

Definition noDetails (b : IBox) : bool :=
  match b.(details) with [] => true | _ :: _ => false end.

(** The transforms the validator lets through. *)
Definition acceptedTransform (t : Transform) : bool :=
  match t.(espEncr), t.(espInte), t.(ahInte) with
  | EncrNone, InteNone, AhNone => false
  | EncrNone, InteNone, _ => true
  | EncrNone, ESP_GMAC_128_192_256, AhNone => true
  | EncrNone, _, _ => false
  | ESP_GCM_128_192_256, InteNone, _ => true
  | ESP_GCM_128_192_256, _, _ => false
  | _, ESP_GMAC_128_192_256, _ => false
  | _, _, _ => true
  end.

(** The label of the original header. *)
Definition originalHeaderText (form : IFormState) : string :=
  ("Original " ++ ver form ++ " Header")%string.

(** The fields of the inner packet are those labelled "Original ...". *)
Definition isOriginal (d : PacketDetail) : bool :=
  String.prefix "Original " d.(text).

(** No field without a group has a text that is the group of a field (as no
    field of the composer has). *)
Definition noClash (ds : list PacketDetail) : bool :=
  forallb (fun d' => negb (isPlain d' && existsb (hasGroup d'.(text)) ds)) ds.

(** The three groups of the composer. *)
Definition composerGroups : list string :=
  ["AH Header"; "ESP Header"; "ESP Trailer"].

Definition isComposerGroup (name : string) : bool :=
  existsb (String.eqb name) composerGroups.

(** A field is well labelled when its group, if it has one, is one of the
    three, and its text otherwise is none of them. *)
Definition wellLabelled (d : PacketDetail) : bool :=
  match groupOf d with
  | Some g => isComposerGroup g
  | None => negb (isComposerGroup d.(text))
  end.

(** The fields of the ESP trailer. *)
Definition espTrailer (form : IFormState) : list PacketDetail :=
  map (espPad (paddingBase form)) (padBlocks form)
  ++ [grouped "Pad Length" 1 "ESP Trailer";
      grouped "Next Header" 1 "ESP Trailer"]
  ++ (if isGcm form || isGmac form then [espIcv 16] else [])
  ++ match hmacIcvSize form.(transform).(espInte) with
     | Some n => [espIcv n]
     | None => []
     end.

(* ================================================================== *)
(** * Proofs *)

(* ================================================================== *)
(** ** Two runs of the composer *)

Example default_run :
  map (fun d => (d.(text), d.(bytes))) (calculatePacket defaultFormValues)
  = [("New IPv4 Header for IPsec", Int 20); ("SPI", Int 4);
     ("Sequence", Int 4); ("ESP IV", Int 16);
     ("Original IPv4 Header", Int 20); ("Original IPv4 Payload", Int 80);
     ("ESP Pad", Int 10); ("Pad Length", Int 1); ("Next Header", Int 1);
     ("ESP ICV", Int 12)]%string.
Proof. vm_compute. reflexivity. Qed.

(** AH with SHA, GCM, tunnel mode over IPv6 with NAT-T and a keyed GRE. *)
Example gre_gcm_run :
  calculatePacket
    (mkForm 1400
       (mkTransform AH_SHA_HMAC ESP_GCM_128_192_256 InteNone Tunnel)
       (mkTransport IPv6 true)
       (mkTunnel true true))
  = [ field "New IPv6 Header for IPsec" 40;
      field "UDP Header (NAT-T)" 8;
      grouped "Next Header" 1 "AH Header";
      grouped "Payload" 1 "AH Header";
      grouped "Reserved" 2 "AH Header";
      grouped "SPI" 4 "AH Header";
      grouped "Sequence" 4 "AH Header";
      field "AH Digest" 12;
      grouped "SPI" 4 "ESP Header";
      grouped "Sequence" 4 "ESP Header";
      field "ESP IV" 8;
      field "New IPv6 Header for GRE" 40;
      field "GRE Header + Tunnel Key" 8;
      field "Original IPv6 Header" 40;
      field "Original IPv6 Payload" 1360;
      grouped "ESP Pad" 2 "ESP Trailer";
      grouped "Pad Length" 1 "ESP Trailer";
      grouped "Next Header" 1 "ESP Trailer";
      grouped "ESP ICV" 16 "ESP Trailer" ].
Proof. vm_compute. reflexivity. Qed.

Example validate_default : validateForm defaultFormValues = ""%string.
Proof. reflexivity. Qed.

Example validate_too_small :
  validateForm (withPacketSize 47 (mkForm 0 (transform defaultFormValues)
                                     (mkTransport IPv6 false)
                                     (mkTunnel false false)))
  = "Please enter a valid packet size between 48 and 64000"%string.
Proof. reflexivity. Qed.

(* ================================================================== *)
(** ** Arithmetic of the padding *)

Lemma ceilDivZ_floor (a b : Z) : 0 < b -> ceilDivZ a b = - ((- a) / b).
Proof.
  intros Hb. unfold ceilDivZ, Qceiling, Qfloor.
  destruct b as [|p|p]; try lia.
  unfold Qdiv, Qinv, inject_Z. cbn [Qnum Qden Qmult Qopp].
  cbn. rewrite Z.mul_1_r. reflexivity.
Qed.

(** [ceilDivZ a b] is the least integer whose product with [b] reaches
    [a]. *)
Lemma ceilDivZ_least (a b : Z) :
  0 < b -> a <= ceilDivZ a b * b < a + b.
Proof.
  intros Hb. rewrite ceilDivZ_floor by assumption.
  pose proof (Z.div_mod (- a) b ltac:(lia)).
  pose proof (Z.mod_pos_bound (- a) b Hb). nia.
Qed.

Lemma getPadSize_Int (l b : Z) :
  getPadSize l b = Int (ceilDivZ (l + 2) b * b - (l + 2)).
Proof. reflexivity. Qed.

Lemma getPadSize_NaN (b : number) : getPadSize NaN b = NaN.
Proof. reflexivity. Qed.

Lemma getPadSize_range (l b : Z) :
  0 < b -> (0 <= getPadSize l b < b)%num.
Proof.
  intros Hb. rewrite getPadSize_Int. cbn [nle nlt].
  pose proof (ceilDivZ_least (l + 2) Hb). lia.
Qed.

Lemma getPadSize_aligned (l b : Z) :
  0 < b ->
  exists p, getPadSize l b = Int p /\ 0 <= p < b /\ (l + 2 + p) mod b = 0.
Proof.
  intros Hb. rewrite getPadSize_Int. eexists. split; [ reflexivity | ].
  pose proof (ceilDivZ_least (l + 2) Hb). split; [ lia | ].
  replace (l + 2 + (ceilDivZ (l + 2) b * b - (l + 2)))
    with (ceilDivZ (l + 2) b * b) by lia.
  apply Z.mod_mul. lia.
Qed.

(** ** Arithmetic of numbers *)

Lemma nadd_0_l (a : number) : (0 + a)%num = a.
Proof. destruct a; cbn; [ f_equal; lia | reflexivity ]. Qed.

Lemma nadd_0_r (a : number) : (a + 0)%num = a.
Proof. destruct a; cbn; [ f_equal; lia | reflexivity ]. Qed.

Lemma nadd_comm (a b : number) : (a + b)%num = (b + a)%num.
Proof. destruct a, b; cbn; try reflexivity. f_equal; lia. Qed.

Lemma nadd_assoc (a b c : number) : (a + (b + c))%num = (a + b + c)%num.
Proof. destruct a, b, c; cbn; try reflexivity. f_equal; lia. Qed.

(** Equations and inequalities between numbers built from integers and the
    numbers of the context. *)
Ltac num :=
  repeat match goal with
         | x : number |- _ => destruct x
         end;
  cbn [nadd nsub nmul nle nlt nleb nltb ngtb ceilDiv getPadSize] in *;
  try reflexivity; try discriminate;
  try (f_equal; lia); try lia.

(* ================================================================== *)
(** ** Framing lemmas *)

Lemma exec_seq (m1 m2 : M unit) s : exec (m1 ;; m2) s = exec m2 (exec m1 s).
Proof. unfold exec, bind. destruct (m1 s) as [[] s']. reflexivity. Qed.

Lemma framed_ret : framed (ret tt).
Proof. intros [l ds]. unfold exec, emitted, lengthAfter; cbn. now rewrite app_nil_r. Qed.

Lemma framed_push ds : framed (push ds).
Proof. intros [l d]. reflexivity. Qed.

Lemma framed_addLength n : framed (addLength n).
Proof. intros [l ds]. unfold exec, emitted, lengthAfter; cbn. now rewrite app_nil_r. Qed.

Lemma framed_setLength n : framed (setLength n).
Proof. intros [l ds]. unfold exec, emitted, lengthAfter; cbn. now rewrite app_nil_r. Qed.

Lemma emitted_seq (m1 m2 : M unit) len :
  framed m2 ->
  emitted (m1 ;; m2) len = emitted m1 len ++ emitted m2 (lengthAfter m1 len).
Proof.
  intros F2. unfold emitted at 1. rewrite exec_seq, F2. reflexivity.
Qed.

Lemma lengthAfter_seq (m1 m2 : M unit) len :
  framed m2 ->
  lengthAfter (m1 ;; m2) len = lengthAfter m2 (lengthAfter m1 len).
Proof.
  intros F2. unfold lengthAfter at 1. rewrite exec_seq, F2. reflexivity.
Qed.

Lemma framed_seq (m1 m2 : M unit) : framed m1 -> framed m2 -> framed (m1 ;; m2).
Proof.
  intros F1 F2 s.
  rewrite emitted_seq, lengthAfter_seq by assumption.
  rewrite exec_seq, F1, F2. cbn. now rewrite app_assoc.
Qed.

Lemma framed_when c m : framed m -> framed (when c m).
Proof. destruct c; intros F; [exact F | exact framed_ret]. Qed.

Lemma framed_pushPad b : framed (pushPad b).
Proof. intros [l ds]. reflexivity. Qed.

Create HintDb framed.
#[export] Hint Resolve framed_ret framed_push framed_addLength framed_setLength
  framed_seq framed_when framed_pushPad : framed.

Lemma emitted_ret len : emitted (ret tt) len = [].
Proof. reflexivity. Qed.

Lemma emitted_push ds len : emitted (push ds) len = ds.
Proof. reflexivity. Qed.

Lemma emitted_when c m len :
  emitted (when c m) len = if c then emitted m len else [].
Proof. destruct c; reflexivity. Qed.

Lemma emitted_pushPad b len :
  emitted (pushPad b) len = [grouped "ESP Pad" (getPadSize len b) "ESP Trailer"].
Proof. reflexivity. Qed.

Lemma lengthAfter_ret len : lengthAfter (ret tt) len = len.
Proof. reflexivity. Qed.

Lemma lengthAfter_push ds len : lengthAfter (push ds) len = len.
Proof. reflexivity. Qed.

Lemma lengthAfter_when c m len :
  lengthAfter (when c m) len = if c then lengthAfter m len else len.
Proof. destruct c; reflexivity. Qed.

Lemma lengthAfter_pushPad b len : lengthAfter (pushPad b) len = len.
Proof. reflexivity. Qed.

Section Steps.

Variable form : IFormState.

Lemma framed_setInnerdata : framed (setInnerdata form).
Proof.
  unfold setInnerdata.
  destruct (greKey (tunnelSetting form)); auto 10 with framed.
Qed.

Lemma framed_determineIpHeaders : framed (determineIpHeaders form).
Proof.
  unfold determineIpHeaders.
  destruct (mode_eqb _ _), (gre (tunnelSetting form)); auto 10 with framed.
Qed.

Lemma framed_natTraversal : framed (natTraversal form).
Proof. unfold natTraversal; auto with framed. Qed.

Lemma framed_grePadding : framed (grePadding form).
Proof. unfold grePadding; auto 10 with framed. Qed.

Hint Resolve framed_setInnerdata framed_determineIpHeaders
  framed_natTraversal framed_grePadding : framed.

Lemma framed_lengthAccounting : framed (lengthAccounting form).
Proof. unfold lengthAccounting; auto 10 with framed. Qed.

Lemma framed_authenticationHeader : framed (authenticationHeader form).
Proof. unfold authenticationHeader; auto 10 with framed. Qed.

Lemma framed_espCipher : framed (espCipher form).
Proof.
  unfold espCipher. destruct (espEncr (transform form)); auto 10 with framed.
Qed.

Lemma framed_espGmac : framed (espGmac form).
Proof. unfold espGmac; auto 10 with framed. Qed.

Lemma framed_espCombinedIcv : framed (espCombinedIcv form).
Proof. unfold espCombinedIcv; auto with framed. Qed.

Lemma framed_espHmacIcv : framed (espHmacIcv form).
Proof.
  unfold espHmacIcv. destruct (espInte (transform form)); auto with framed.
Qed.

Hint Resolve framed_lengthAccounting framed_authenticationHeader
  framed_espCipher framed_espGmac framed_espCombinedIcv framed_espHmacIcv
  : framed.

Lemma framed_espSection : framed (espSection form).
Proof. unfold espSection; auto 10 with framed. Qed.

Lemma framed_calculatePacketBody : framed (calculatePacketBody form).
Proof.
  unfold calculatePacketBody.
  auto using framed_espSection with framed.
Qed.

End Steps.

#[export] Hint Resolve framed_setInnerdata framed_determineIpHeaders
  framed_natTraversal framed_grePadding framed_lengthAccounting
  framed_authenticationHeader framed_espCipher framed_espGmac
  framed_espCombinedIcv framed_espHmacIcv framed_espSection : framed.

(* ================================================================== *)
(** ** The composer as a sequence of parts *)

Ltac emit_step :=
  first [ rewrite emitted_seq by (auto 10 with framed)
        | rewrite emitted_ret | rewrite emitted_push
        | rewrite emitted_when | rewrite emitted_pushPad ].

Ltac len_step :=
  first [ rewrite lengthAfter_seq by (auto 10 with framed)
        | rewrite lengthAfter_ret | rewrite lengthAfter_push
        | rewrite lengthAfter_when | rewrite lengthAfter_pushPad ].

Ltac destruct_form form :=
  destruct form as [ps [ah enc inte mode] [ip nat] [g gk]].

Ltac run :=
  cbv - [Z.add Z.sub Z.mul Z.opp Z.le Z.lt Z.div Z.modulo ceilDivZ].

(** The same with the packet size split in an integer and NaN. *)
Ltac destruct_size form :=
  destruct form as [[ps|] [ah enc inte mode] [ip nat] [g gk]].

Ltac int_eq := first [ reflexivity | f_equal; lia ].

Lemma emitted_setInnerdata form len :
  emitted (setInnerdata form) len = innerData form.
Proof.
  destruct_form form. destruct mode, g, gk; reflexivity.
Qed.

Lemma lengthAfter_setInnerdata form len :
  lengthAfter (setInnerdata form) len = len.
Proof.
  destruct_form form. destruct mode, g, gk; reflexivity.
Qed.

Ltac emit := repeat (first [ emit_step | rewrite emitted_setInnerdata ]).
Ltac len := repeat (first [ len_step | rewrite lengthAfter_setInnerdata ]).

Section Parts.

Variable form : IFormState.

Lemma lengthAfter_authenticationHeader len :
  lengthAfter (authenticationHeader form) len = len.
Proof.
  unfold authenticationHeader. len.
  repeat match goal with |- context [if ?c then _ else _] => destruct c end.
  all: reflexivity.
Qed.

Lemma lengthAfter_espCipher len : lengthAfter (espCipher form) len = len.
Proof.
  unfold espCipher. destruct (espEncr (transform form)); len; reflexivity.
Qed.

Lemma lengthAfter_espGmac len : lengthAfter (espGmac form) len = len.
Proof.
  unfold espGmac. len. destruct (inte_eqb _ _); reflexivity.
Qed.

Lemma lengthAfter_espCombinedIcv len :
  lengthAfter (espCombinedIcv form) len = len.
Proof.
  unfold espCombinedIcv. len. destruct (_ || _); reflexivity.
Qed.

Lemma lengthAfter_natTraversal len :
  lengthAfter (natTraversal form) len = len.
Proof.
  unfold natTraversal. len. destruct (natTraver _); reflexivity.
Qed.

Lemma lengthAfter_espHmacIcv len :
  lengthAfter (espHmacIcv form) len = len.
Proof.
  unfold espHmacIcv. destruct (espInte (transform form)); reflexivity.
Qed.

Lemma lengthAfter_espSection len :
  lengthAfter (espSection form) len = len.
Proof.
  unfold espSection. len.
  rewrite lengthAfter_espCipher, lengthAfter_espGmac,
    lengthAfter_espCombinedIcv, lengthAfter_espHmacIcv.
  destruct (espTriggered form); reflexivity.
Qed.

(** The output is the three parts in order, the last two started from the
    padding base. *)
Lemma calculatePacket_parts :
  calculatePacket form =
    emitted (lengthAccounting form) 0
    ++ emitted (authenticationHeader form) (paddingBase form)
    ++ emitted (espSection form) (paddingBase form).
Proof.
  unfold calculatePacket, calculatePacketBody.
  change (packetDetails (exec ?m initial)) with (emitted m 0).
  emit. len. rewrite lengthAfter_authenticationHeader. reflexivity.
Qed.

(** The ESP part, block by block. *)
Lemma emitted_espSection len :
  emitted (espSection form) len =
    if espTriggered form then
      [grouped "SPI" 4 "ESP Header"; grouped "Sequence" 4 "ESP Header"]
      ++ emitted (espCipher form) len
      ++ emitted (espGmac form) len
      ++ [grouped "Pad Length" 1 "ESP Trailer";
          grouped "Next Header" 1 "ESP Trailer"]
      ++ emitted (espCombinedIcv form) len
      ++ emitted (espHmacIcv form) len
    else [].
Proof.
  unfold espSection. emit. len.
  rewrite lengthAfter_espCipher, lengthAfter_espGmac,
    lengthAfter_espCombinedIcv.
  reflexivity.
Qed.

End Parts.

(* ================================================================== *)
(** ** Facts about the parts *)

Lemma ipHeaderSize_headerSize form :
  ipHeaderSize form = headerSize form.(transport).(ipProtocol).
Proof. destruct_form form. destruct ip; reflexivity. Qed.

Lemma paddingBase_stepsOneToThree form :
  paddingBase form = stepsOneToThree form.
Proof.
  destruct_size form;
    destruct mode, ip, nat, g, gk; run; int_eq.
Qed.

Section TrailerTexts.

(** Only the ESP section pushes fields labelled "ESP Pad" or "ESP ICV". *)
Variable t : string.
Hypothesis trailer : t = "ESP Pad"%string \/ t = "ESP ICV"%string.

Lemma innerData_no_trailer form : filter (hasText t) (innerData form) = [].
Proof.
  destruct_form form.
  destruct trailer; subst t; destruct mode, ip, g, gk; reflexivity.
Qed.

Lemma lengthAccounting_no_trailer form len :
  filter (hasText t) (emitted (lengthAccounting form) len) = [].
Proof.
  destruct_form form.
  destruct trailer; subst t; destruct mode, ip, nat, g, gk; reflexivity.
Qed.

Lemma authenticationHeader_no_trailer form len :
  filter (hasText t) (emitted (authenticationHeader form) len) = [].
Proof.
  unfold authenticationHeader. emit.
  repeat match goal with |- context [if ?c then _ else _] => destruct c end;
    repeat rewrite filter_app; rewrite ?innerData_no_trailer;
    destruct trailer; subst t; reflexivity.
Qed.

End TrailerTexts.

Lemma espCipher_pads form len :
  filter (hasText "ESP Pad") (emitted (espCipher form) len) =
    match blockSize form.(transform).(espEncr) with
    | Some b => [espPad len b]
    | None => []
    end.
Proof.
  unfold espCipher.
  destruct (espEncr (transform form)); emit; len; repeat rewrite filter_app;
    rewrite ?innerData_no_trailer by auto; reflexivity.
Qed.

Lemma espGmac_pads form len :
  filter (hasText "ESP Pad") (emitted (espGmac form) len) =
    if isGmac form then [espPad len 4] else [].
Proof.
  unfold espGmac, isGmac. emit. len.
  destruct (inte_eqb _ _); repeat rewrite filter_app;
    rewrite ?innerData_no_trailer by auto; reflexivity.
Qed.

Lemma espCipher_no_icv form len :
  filter (hasText "ESP ICV") (emitted (espCipher form) len) = [].
Proof.
  unfold espCipher.
  destruct (espEncr (transform form)); emit; len; repeat rewrite filter_app;
    rewrite ?innerData_no_trailer by auto; reflexivity.
Qed.

Lemma espGmac_no_icv form len :
  filter (hasText "ESP ICV") (emitted (espGmac form) len) = [].
Proof.
  unfold espGmac. emit. len.
  destruct (inte_eqb _ _); repeat rewrite filter_app;
    rewrite ?innerData_no_trailer by auto; reflexivity.
Qed.

Lemma emitted_espCombinedIcv form len :
  emitted (espCombinedIcv form) len =
    if isGcm form || isGmac form then [espIcv 16] else [].
Proof. unfold espCombinedIcv. emit. reflexivity. Qed.

Lemma emitted_espHmacIcv form len :
  emitted (espHmacIcv form) len =
    match hmacIcvSize form.(transform).(espInte) with
    | Some n => [espIcv n]
    | None => []
    end.
Proof.
  unfold espHmacIcv. destruct (espInte (transform form)); reflexivity.
Qed.

(* ================================================================== *)
(** ** The default configuration, the pads and the ICVs *)

(** C1. For the default transform (AES with SHA-HMAC, no AH, tunnel mode,
    IPv4, no NAT-T, no GRE) and a packet of 100 bytes the composer returns
    exactly the ten fields below, in this order: the new IPv4 header, the ESP
    header, the 16-byte IV, the original header and payload, the pad of 10
    bytes computed on the running length 100 with block size 16, the two
    trailer bytes and the 12-byte ICV; there is no AH field. *)
Theorem C1_default_configuration (greKeyValue : bool) :
  calculatePacket
    (mkForm 100
       (mkTransform AhNone ESP_AES_128_192_256 ESP_SHA_HMAC Tunnel)
       (mkTransport IPv4 false)
       (mkTunnel false greKeyValue))
  = [ field "New IPv4 Header for IPsec" 20;
      grouped "SPI" 4 "ESP Header";
      grouped "Sequence" 4 "ESP Header";
      field "ESP IV" 16;
      field "Original IPv4 Header" 20;
      field "Original IPv4 Payload" 80;
      grouped "ESP Pad" (getPadSize 100 16) "ESP Trailer";
      grouped "Pad Length" 1 "ESP Trailer";
      grouped "Next Header" 1 "ESP Trailer";
      grouped "ESP ICV" 12 "ESP Trailer" ]
  /\ getPadSize 100 16 = 10.
Proof.
  destruct greKeyValue; split; vm_compute; reflexivity.
Qed.

Lemma calculatePacket_pads form :
  filter (hasText "ESP Pad") (calculatePacket form)
  = map (espPad (paddingBase form)) (padBlocks form).
Proof.
  rewrite calculatePacket_parts, !filter_app.
  rewrite lengthAccounting_no_trailer, authenticationHeader_no_trailer by auto.
  rewrite emitted_espSection. cbn [app].
  unfold padBlocks. rewrite map_app. fold (isGmac form).
  destruct (espTriggered form) eqn:T.
  - change (?a :: ?b :: ?l) with ([a; b] ++ l).
    rewrite !filter_app, espCipher_pads, espGmac_pads.
    rewrite emitted_espCombinedIcv, emitted_espHmacIcv.
    destruct (blockSize _), (isGmac form), (isGcm form),
      (hmacIcvSize _); reflexivity.
  - unfold espTriggered in T. unfold isGmac.
    destruct (espEncr (transform form)), (espInte (transform form));
      try discriminate T; reflexivity.
Qed.

(** C2. Every "ESP Pad" field of the output has the size
    ceil((L + 2) / B) * B - (L + 2): one for the block size B of the selected
    cipher (8, 16, 4, 4) when there is one, then one with B = 4 when the
    integrity algorithm is GMAC.  L is the running length of steps 1 to 3,
    made of the packet size, the headers and the GRE bytes; the NAT-T
    header, the Authentication Header block, the inner-data helper and the
    ESP section (headers, IV, trailer) add nothing to it. *)
Theorem C2_esp_pad_formula (form : IFormState) :
  filter (hasText "ESP Pad") (calculatePacket form)
  = map (fun B : Z =>
           grouped "ESP Pad"
             (ceilDiv (paddingBase form + 2) B * B - (paddingBase form + 2))
             "ESP Trailer")
        (padBlocks form)
  /\ paddingBase form = stepsOneToThree form
  /\ (forall len,
        lengthAfter (natTraversal form) len = len
        /\ lengthAfter (authenticationHeader form) len = len
        /\ lengthAfter (setInnerdata form) len = len
        /\ lengthAfter (espSection form) len = len).
Proof.
  split; [ apply calculatePacket_pads | ].
  split; [ apply paddingBase_stepsOneToThree | ].
  intros len.
  auto using lengthAfter_natTraversal, lengthAfter_authenticationHeader,
    lengthAfter_setInnerdata, lengthAfter_espSection.
Qed.

(** C7. In the ESP section the combined-mode block pushes one 16-byte
    "ESP ICV" exactly when the cipher is GCM or the integrity algorithm is
    GMAC; the block after it pushes an "ESP ICV" chosen by the integrity
    algorithm alone (12, 12, 16, 24, 32 bytes, none for None and GMAC); both
    are in group "ESP Trailer", and these are all the "ESP ICV" fields of
    the output, in this order. *)
Theorem C7_esp_icv (form : IFormState) (len : number) :
  emitted (espCombinedIcv form) len
  = (if isGcm form || isGmac form
     then [grouped "ESP ICV" 16 "ESP Trailer"] else [])
  /\ emitted (espHmacIcv form) len
     = match hmacIcvSize form.(transform).(espInte) with
       | Some n => [grouped "ESP ICV" n "ESP Trailer"]
       | None => []
       end
  /\ filter (hasText "ESP ICV") (calculatePacket form)
     = if espTriggered form
       then emitted (espCombinedIcv form) (paddingBase form)
            ++ emitted (espHmacIcv form) (paddingBase form)
       else [].
Proof.
  split; [ apply emitted_espCombinedIcv | ].
  split; [ apply emitted_espHmacIcv | ].
  rewrite calculatePacket_parts, !filter_app.
  rewrite lengthAccounting_no_trailer, authenticationHeader_no_trailer by auto.
  rewrite emitted_espSection. cbn [app].
  destruct (espTriggered form); [ | reflexivity ].
  change (?a :: ?b :: ?l) with ([a; b] ++ l).
  rewrite !filter_app, espCipher_no_icv, espGmac_no_icv.
  rewrite emitted_espCombinedIcv, emitted_espHmacIcv.
  destruct (isGcm form || isGmac form), (hmacIcvSize _); reflexivity.
Qed.

Lemma message_nonempty form r : message form r <> ""%string.
Proof. destruct r; discriminate. Qed.

(** The validator is its size test followed by the five later rules. *)
Lemma validateForm_cases form :
  validateForm form =
    if sizeRejected form then message form PacketSizeBounds
    else match find (violates form) laterRules with
         | Some r => message form r
         | None => ""%string
         end.
Proof.
  destruct_form form.
  unfold validateForm, sizeRejected, laterRules, find, violates, message,
    minPacketSize, maxPacketSize, ipHeaderSize.
  cbn [packetSize transform transport tunnelSetting ahInte espEncr espInte
       ipProtocol includes existsb].
  destruct ip; cbn [ip_eqb headerSize];
    destruct (nltb ps _ || ngtb ps _);
    try reflexivity; destruct enc, inte, ah; reflexivity.
Qed.

(** The size test lets through the sizes within the bounds, and NaN. *)
Lemma sizeRejected_false form :
  sizeRejected form = false <->
  form.(packetSize) = NaN
  \/ (minPacketSize form <= form.(packetSize) <= maxPacketSize)%num.
Proof.
  unfold sizeRejected, minPacketSize, maxPacketSize.
  rewrite ipHeaderSize_headerSize.
  destruct (packetSize form) as [z|]; cbn [nltb ngtb nle nadd].
  - rewrite orb_false_iff, Z.ltb_ge, Z.gtb_ltb, Z.ltb_ge. split.
    + intros [H1 H2]. right. lia.
    + intros [H | H]; [ discriminate | lia ].
  - split; [ now left | reflexivity ].
Qed.

Lemma violates_PacketSizeBounds form :
  violates form PacketSizeBounds = true <->
  ~ (minPacketSize form <= form.(packetSize) <= maxPacketSize)%num.
Proof.
  cbn [violates]. rewrite negb_true_iff, andb_false_iff.
  destruct (packetSize form) as [z|]; cbn [nleb nle].
  - rewrite !Z.leb_gt. lia.
  - split; [ tauto | now left ].
Qed.

(** On integers the size test is the first rule. *)
Lemma sizeRejected_violates form z :
  form.(packetSize) = Int z ->
  sizeRejected form = violates form PacketSizeBounds.
Proof.
  intros E. unfold sizeRejected. cbn [violates].
  unfold minPacketSize, maxPacketSize. rewrite ipHeaderSize_headerSize, E.
  cbn [nltb ngtb nleb nadd]. rewrite Z.gtb_ltb.
  destruct (Z.ltb_spec z (headerSize (ipProtocol (transport form)) + 8)),
    (Z.leb_spec (headerSize (ipProtocol (transport form)) + 8) z),
    (Z.ltb_spec 64000 z), (Z.leb_spec z 64000); try lia; reflexivity.
Qed.

(** For an integer packet size the validator returns the message of the
    first rule, in the listed order, that the configuration violates, and
    the empty string when there is none. *)
Lemma validateForm_firstViolation form z :
  form.(packetSize) = Int z ->
  validateForm form =
    match firstViolation form with
    | Some r => message form r
    | None => ""%string
    end.
Proof.
  intros E. rewrite validateForm_cases, (sizeRejected_violates form E).
  unfold firstViolation, rulesInOrder. cbn [find].
  destruct (violates form PacketSizeBounds); reflexivity.
Qed.

Lemma laterRuleFires_false form :
  laterRuleFires form = false <->
  forall r, r <> PacketSizeBounds -> violates form r = false.
Proof.
  unfold laterRuleFires, laterRules. cbn [existsb]. split.
  - intros H r Hr. rewrite !orb_false_iff in H.
    destruct r; [ congruence | tauto .. ].
  - intros H. rewrite !H by discriminate. reflexivity.
Qed.

Lemma find_laterRules form :
  find (violates form) laterRules = None <-> laterRuleFires form = false.
Proof.
  unfold laterRuleFires, laterRules. cbn [find existsb].
  destruct (violates form NoProtection),
    (violates form IntegrityWithoutCipher),
    (violates form GcmWithIntegrity), (violates form GmacWithCipher),
    (violates form AhWithGmac); cbn; split; congruence.
Qed.

(** The validator returns the empty string exactly when its size test
    passes and none of the later rules is violated. *)
Lemma validateForm_valid form :
  validateForm form = ""%string <->
  sizeRejected form = false /\ laterRuleFires form = false.
Proof.
  rewrite validateForm_cases, <- find_laterRules.
  destruct (sizeRejected form).
  - split; [ intros H; now apply message_nonempty in H | intros [H _]; discriminate ].
  - destruct (find _ _) as [r|].
    + split; [ intros H; now apply message_nonempty in H
             | intros [_ H]; discriminate ].
    + split; auto.
Qed.

Lemma valid_packetSize form z :
  validateForm form = ""%string ->
  form.(packetSize) = Int z ->
  ipHeaderSize form + 8 <= z <= 64000.
Proof.
  intros V E. apply validateForm_valid in V. destruct V as [V _].
  apply sizeRejected_false in V. rewrite E in V.
  destruct V as [V | V]; [ discriminate | ].
  rewrite ipHeaderSize_headerSize.
  unfold minPacketSize, maxPacketSize in V. cbn [nle] in V. lia.
Qed.

(** With IPv4 and a transform that breaks none of the later rules, 27 bytes
    are rejected with the packet-size message and 28 bytes are accepted. *)
Lemma validateForm_27_28 form :
  form.(transport).(ipProtocol) = IPv4 ->
  laterRuleFires form = false ->
  validateForm (withPacketSize 27 form)
  = "Please enter a valid packet size between 28 and 64000"%string
  /\ validateForm (withPacketSize 28 form) = ""%string.
Proof.
  intros Hip Hlater. rewrite !validateForm_cases.
  destruct_form form. cbn in Hip. subst ip.
  apply find_laterRules in Hlater.
  unfold withPacketSize. cbn [transform transport tunnelSetting].
  change (find (violates (mkForm ?n ?a ?b ?c)) laterRules)
    with (find (violates (mkForm ps a b c)) laterRules).
  rewrite Hlater. split; reflexivity.
Qed.

(** C3. With the packet size field emptied the size is NaN, which is not
    within the bounds: the first rule is the first one violated.  Both
    comparisons of the validator are false on NaN, so that it does not
    return the message of that rule but the empty string. *)
Theorem C3_nan_passes_the_size_rule :
  emptiedFieldFormValues.(packetSize) = NaN
  /\ violates emptiedFieldFormValues PacketSizeBounds = true
  /\ firstViolation emptiedFieldFormValues = Some PacketSizeBounds
  /\ validateForm emptiedFieldFormValues = ""%string.
Proof. repeat split. Qed.

(** C5. The validator does not fail the emptied packet size field although
    NaN is not between [headerSize + 8] and 64000 and no later rule
    fires. *)
Theorem C5_nan_size_not_rejected :
  validateForm emptiedFieldFormValues = ""%string
  /\ ~ (headerSize IPv4 + 8 <= emptiedFieldFormValues.(packetSize)
        <= 64000)%num
  /\ laterRuleFires emptiedFieldFormValues = false.
Proof.
  split; [ reflexivity | ]. split; [ | reflexivity ].
  cbn. tauto.
Qed.

(* ================================================================== *)
(** ** Sizes are not negative *)

Ltac forall_nonneg :=
  repeat first
    [ apply Forall_nil
    | apply Forall_app; split
    | apply Forall_cons;
      [ unfold nonneg; cbn [bytes field grouped];
        first [ cbn [nle nsub]; lia | apply getPadSize_range; lia ] | ] ].

(** The padding base of an integer packet size is an integer, at most a
    header below and a header and a keyed GRE header above it. *)
Lemma paddingBase_Int form z :
  form.(packetSize) = Int z ->
  exists l,
    paddingBase form = Int l
    /\ z - headerSize form.(transport).(ipProtocol) <= l
       <= z + headerSize form.(transport).(ipProtocol) + 8.
Proof.
  rewrite paddingBase_stepsOneToThree. destruct_form form.
  cbn [packetSize]. intros ->. unfold stepsOneToThree.
  cbn [packetSize transform transport tunnelSetting tunnelMode ipProtocol
       gre greKey].
  destruct mode, ip, g, gk; cbn [headerSize nadd nsub];
    eexists; (split; [ reflexivity | lia ]).
Qed.

Lemma paddingBase_NaN form :
  form.(packetSize) = NaN -> paddingBase form = NaN.
Proof.
  rewrite paddingBase_stepsOneToThree. destruct_form form.
  cbn [packetSize]. intros ->. destruct mode, g, gk; reflexivity.
Qed.

Lemma innerData_nonneg form :
  (ipHeaderSize form <= form.(packetSize))%num ->
  Forall nonneg (innerData form).
Proof.
  destruct_size form; [ | intros [] ].
  destruct mode, ip, g, gk; run; intros H; forall_nonneg.
Qed.

Lemma lengthAccounting_nonneg form len :
  Forall nonneg (emitted (lengthAccounting form) len).
Proof.
  destruct_form form.
  destruct mode, ip, nat, g, gk; run; forall_nonneg.
Qed.

Lemma authenticationHeader_nonneg form len :
  (ipHeaderSize form <= form.(packetSize))%num ->
  Forall nonneg (emitted (authenticationHeader form) len).
Proof.
  intros H. pose proof (innerData_nonneg form H).
  unfold authenticationHeader. emit.
  repeat match goal with |- context [if ?c then _ else _] => destruct c end;
    forall_nonneg; assumption.
Qed.

Lemma espHmacIcv_nonneg form len :
  Forall nonneg (emitted (espHmacIcv form) len).
Proof.
  unfold espHmacIcv.
  destruct (espInte (transform form)); emit; forall_nonneg.
Qed.

Lemma espCombinedIcv_nonneg form len :
  Forall nonneg (emitted (espCombinedIcv form) len).
Proof.
  unfold espCombinedIcv. emit. destruct (_ || _); forall_nonneg.
Qed.

Lemma espCipher_nonneg form (len : Z) :
  (ipHeaderSize form <= form.(packetSize))%num ->
  Forall nonneg (emitted (espCipher form) len).
Proof.
  intros H. pose proof (innerData_nonneg form H).
  unfold espCipher.
  destruct (espEncr (transform form)); emit; len; forall_nonneg; assumption.
Qed.

Lemma espGmac_nonneg form (len : Z) :
  (ipHeaderSize form <= form.(packetSize))%num ->
  Forall nonneg (emitted (espGmac form) len).
Proof.
  intros H. pose proof (innerData_nonneg form H).
  unfold espGmac. emit. len.
  destruct (inte_eqb _ _); forall_nonneg; assumption.
Qed.

Lemma espSection_nonneg form (len : Z) :
  (ipHeaderSize form <= form.(packetSize))%num ->
  Forall nonneg (emitted (espSection form) len).
Proof.
  intros H. rewrite emitted_espSection.
  destruct (espTriggered form); [ | constructor ].
  forall_nonneg;
    auto using espCipher_nonneg, espGmac_nonneg, espCombinedIcv_nonneg,
      espHmacIcv_nonneg.
Qed.

(** For an integer packet size that the validator accepts every field of
    the output has a size that is not negative. *)
Lemma calculatePacket_nonneg form z :
  validateForm form = ""%string ->
  form.(packetSize) = Int z ->
  Forall nonneg (calculatePacket form).
Proof.
  intros V E. pose proof (valid_packetSize form V E) as S.
  destruct (paddingBase_Int form E) as (l & L & _).
  assert (H : (ipHeaderSize form <= form.(packetSize))%num)
    by (rewrite E; cbn [nle]; lia).
  rewrite calculatePacket_parts, L.
  repeat (apply Forall_app; split).
  - apply lengthAccounting_nonneg.
  - apply authenticationHeader_nonneg. exact H.
  - apply espSection_nonneg. exact H.
Qed.

(** C6. The validator accepts the emptied packet size field, and the
    composer then gives the payload and the pad the size NaN, which is not
    at least 0. *)
Theorem C6_nan_sizes_emitted :
  validateForm emptiedFieldFormValues = ""%string
  /\ In (field "Original IPv4 Payload" NaN)
        (calculatePacket emptiedFieldFormValues)
  /\ In (grouped "ESP Pad" NaN "ESP Trailer")
        (calculatePacket emptiedFieldFormValues)
  /\ ~ Forall (fun d => (0 <= d.(bytes))%num)
        (calculatePacket emptiedFieldFormValues).
Proof.
  split; [ reflexivity | ].
  assert (P : In (field "Original IPv4 Payload" NaN)
                 (calculatePacket emptiedFieldFormValues))
    by (vm_compute; tauto).
  split; [ exact P | ]. split; [ vm_compute; tauto | ].
  intros F. rewrite Forall_forall in F. exact (F _ P).
Qed.

(* ================================================================== *)
(** ** Where the inner data is pushed *)

(** One call of [setInnerdata] pushes exactly one payload field. *)
Lemma innerData_payload form :
  filter (isPayload form) (innerData form) = [payloadField form].
Proof.
  destruct_form form. destruct mode, ip, g, gk; reflexivity.
Qed.

Lemma lengthAccounting_no_payload form len :
  filter (isPayload form) (emitted (lengthAccounting form) len) = [].
Proof.
  destruct_form form. destruct mode, ip, nat, g, gk; reflexivity.
Qed.

Lemma authenticationHeader_payload form len :
  filter (isPayload form) (emitted (authenticationHeader form) len) =
    if negb (ah_eqb form.(transform).(ahInte) AhNone)
       && (encr_eqb form.(transform).(espEncr) EncrNone
           && inte_eqb form.(transform).(espInte) InteNone)
    then [payloadField form] else [].
Proof.
  unfold authenticationHeader. emit.
  pose proof (innerData_payload form) as I.
  destruct (negb _); [ | reflexivity ].
  cbn [andb]. rewrite !filter_app.
  destruct (encr_eqb _ _ && inte_eqb _ _); rewrite ?I;
    destruct (ah_eqb _ AH_MD5_HMAC), (ah_eqb _ AH_SHA_HMAC);
    destruct_form form; destruct ip; reflexivity.
Qed.

Lemma espCipher_payload form len :
  filter (isPayload form) (emitted (espCipher form) len) =
    if encr_eqb form.(transform).(espEncr) EncrNone
    then [] else [payloadField form].
Proof.
  unfold espCipher. pose proof (innerData_payload form) as I.
  destruct (espEncr (transform form)); emit; len; rewrite ?filter_app, ?I;
    destruct_form form; destruct ip; reflexivity.
Qed.

Lemma espGmac_payload form len :
  filter (isPayload form) (emitted (espGmac form) len) =
    if isGmac form then [payloadField form] else [].
Proof.
  unfold espGmac, isGmac. pose proof (innerData_payload form) as I.
  emit. len. destruct (inte_eqb _ _); rewrite ?filter_app, ?I;
    destruct_form form; destruct ip; reflexivity.
Qed.

Lemma espSection_payload form len :
  filter (isPayload form) (emitted (espSection form) len) =
    if espTriggered form
    then filter (isPayload form) (emitted (espCipher form) len)
         ++ filter (isPayload form) (emitted (espGmac form) len)
    else [].
Proof.
  rewrite emitted_espSection, emitted_espCombinedIcv, emitted_espHmacIcv.
  destruct (espTriggered form); [ | reflexivity ].
  rewrite !filter_app.
  destruct (isGcm form || isGmac form), (hmacIcvSize _);
    destruct_form form; destruct ip; cbn [filter app];
    rewrite ?app_nil_r; reflexivity.
Qed.

Lemma payload_count form :
  List.length (filter (isPayload form) (calculatePacket form)) =
    ((if negb (ah_eqb form.(transform).(ahInte) AhNone)
         && (encr_eqb form.(transform).(espEncr) EncrNone
             && inte_eqb form.(transform).(espInte) InteNone)
      then 1 else 0)
     + (if encr_eqb form.(transform).(espEncr) EncrNone then 0 else 1)
     + (if isGmac form then 1 else 0))%nat.
Proof.
  rewrite calculatePacket_parts, !filter_app, lengthAccounting_no_payload.
  rewrite authenticationHeader_payload, espSection_payload,
    espCipher_payload, espGmac_payload.
  unfold espTriggered, isGmac.
  destruct (ah_eqb _ _), (encr_eqb _ _), (inte_eqb _ InteNone),
    (inte_eqb _ ESP_GMAC_128_192_256); reflexivity.
Qed.

Lemma valid_innerDataReached form :
  validateForm form = ""%string ->
  innerDataReached form = true /\
  (encr_eqb form.(transform).(espEncr) EncrNone = false ->
   isGmac form = false).
Proof.
  intros V. rewrite validateForm_valid, laterRuleFires_false in V.
  destruct V as [_ V].
  pose proof (V NoProtection ltac:(discriminate)) as V2.
  pose proof (V IntegrityWithoutCipher ltac:(discriminate)) as V3.
  pose proof (V GmacWithCipher ltac:(discriminate)) as V5.
  clear V. unfold innerDataReached, isGmac. cbn [violates] in *.
  destruct (espEncr (transform form)), (espInte (transform form)),
    (ahInte (transform form)); try discriminate; split; auto; discriminate.
Qed.

(** C4, as the code has it. One call of [setInnerdata] pushes exactly one payload
    field and nothing else pushes one.  In every configuration the
    Authentication Header block and the ESP section never both push a
    payload.  A payload is pushed at least once exactly when a cipher is
    selected, or the integrity algorithm is GMAC, or there is no ESP
    integrity algorithm and AH is selected; every configuration the validator
    accepts is of this kind and has exactly one payload. *)
Theorem C4_inner_data_calls (form : IFormState) :
  let fromAH := emitted (authenticationHeader form) (paddingBase form) in
  let fromESP := emitted (espSection form) (paddingBase form) in
  let payloads := filter (isPayload form) in
  (forall len,
     payloads (emitted (setInnerdata form) len) = [payloadField form])
  /\ calculatePacket form
     = emitted (lengthAccounting form) 0 ++ fromAH ++ fromESP
  /\ payloads (emitted (lengthAccounting form) 0) = []
  /\ (payloads fromAH = [] \/ payloads fromESP = [])
  /\ ((1 <= List.length (payloads (calculatePacket form)))%nat
      <-> innerDataReached form = true)
  /\ (validateForm form = ""%string ->
      List.length (payloads (calculatePacket form)) = 1%nat).
Proof.
  cbv zeta. repeat split.
  - intros len. rewrite emitted_setInnerdata. apply innerData_payload.
  - apply calculatePacket_parts.
  - apply lengthAccounting_no_payload.
  - rewrite authenticationHeader_payload, espSection_payload.
    unfold espTriggered.
    destruct (ah_eqb _ _), (encr_eqb _ _) eqn:E, (inte_eqb _ InteNone) eqn:I;
      cbn [negb andb orb]; auto.
    destruct (espInte (transform form)); try discriminate I. auto.
  - rewrite payload_count. unfold innerDataReached, isGmac.
    destruct (espEncr (transform form)), (espInte (transform form)),
      (ahInte (transform form)); cbn; intros; (reflexivity || lia).
  - rewrite payload_count. unfold innerDataReached, isGmac.
    destruct (espEncr (transform form)), (espInte (transform form)),
      (ahInte (transform form)); cbn; intros; (discriminate || lia).
  - intros V. apply valid_innerDataReached in V. destruct V as [R G].
    rewrite payload_count. unfold innerDataReached, isGmac in *.
    destruct (espEncr (transform form)), (espInte (transform form)),
      (ahInte (transform form)); cbn in *; try discriminate R;
      try reflexivity; specialize (G eq_refl); discriminate G.
Qed.

Lemma C4_inner_data_calls_witness :
  List.length (filter (isPayload defaultFormValues)
            (calculatePacket defaultFormValues)) = 1%nat.
Proof.
  apply (C4_inner_data_calls defaultFormValues). reflexivity.
Defined.

(** C4 does not hold for every configuration with a protection: with ESP
    integrity SHA-HMAC, no cipher and no AH a protection is configured, but
    neither section runs [setInnerdata] and the output is the outer header
    alone. *)
Lemma C4_counterexample :
  protectionConfigured integrityOnlyFormValues = true
  /\ calculatePacket integrityOnlyFormValues
     = [field "New IPv4 Header for IPsec" 20]
  /\ ~ (1 <= List.length (filter (isPayload integrityOnlyFormValues)
                            (calculatePacket integrityOnlyFormValues)))%nat.
Proof.
  split; [ reflexivity | ]. split; [ reflexivity | ].
  vm_compute. lia.
Qed.

(* ================================================================== *)
(** ** The GRE key *)

Lemma keyDifference_refl len ds : Forall2 (keyDifference len) ds ds.
Proof. induction ds; constructor; auto using kd_same. Qed.

Ltac key_difference :=
  repeat first
    [ apply Forall2_nil
    | apply keyDifference_refl
    | apply Forall2_app
    | apply Forall2_cons;
      [ first [ apply kd_same | apply kd_greHeader | apply kd_espPad ] | ] ].

Section GreKey.

Variable form : IFormState.
Hypothesis greOn : form.(tunnelSetting).(gre) = true.

Lemma paddingBase_withGreKey :
  paddingBase (withGreKey true form)
  = (paddingBase (withGreKey false form) + 4)%num.
Proof.
  rewrite !paddingBase_stepsOneToThree.
  destruct_size form; cbn in greOn; subst g;
    unfold stepsOneToThree, withGreKey;
    cbn [packetSize transform transport tunnelSetting tunnelMode ipProtocol
         gre greKey];
    destruct mode; cbn [nadd nsub]; int_eq.
Qed.

Lemma lengthAccounting_withGreKey :
  emitted (lengthAccounting (withGreKey true form)) 0
  = emitted (lengthAccounting (withGreKey false form)) 0.
Proof.
  destruct_form form. cbn in greOn. subst g.
  destruct mode, ip, nat; reflexivity.
Qed.

Lemma innerData_withGreKey len :
  Forall2 (keyDifference len) (innerData (withGreKey true form)) (innerData (withGreKey false form)).
Proof.
  destruct_form form. cbn in greOn. subst g.
  destruct mode, ip; run; key_difference.
Qed.

Lemma authenticationHeader_withGreKey len len' :
  Forall2 (keyDifference len)
    (emitted (authenticationHeader (withGreKey true form)) len')
    (emitted (authenticationHeader (withGreKey false form)) len).
Proof.
  pose proof (innerData_withGreKey len).
  unfold authenticationHeader. emit.
  change (transform (withGreKey true form)) with (transform form).
  change (transform (withGreKey false form)) with (transform form).
  repeat match goal with |- context [if ?c then _ else _] => destruct c end;
    key_difference; assumption.
Qed.

Lemma espCipher_withGreKey len :
  Forall2 (keyDifference len)
    (emitted (espCipher (withGreKey true form)) (len + 4)%num)
    (emitted (espCipher (withGreKey false form)) len).
Proof.
  pose proof (innerData_withGreKey len).
  unfold espCipher.
  change (transform (withGreKey true form)) with (transform form).
  change (transform (withGreKey false form)) with (transform form).
  destruct (espEncr (transform form)); emit; len; key_difference;
    assumption.
Qed.

Lemma espGmac_withGreKey len :
  Forall2 (keyDifference len)
    (emitted (espGmac (withGreKey true form)) (len + 4)%num)
    (emitted (espGmac (withGreKey false form)) len).
Proof.
  pose proof (innerData_withGreKey len).
  unfold espGmac.
  change (transform (withGreKey true form)) with (transform form).
  change (transform (withGreKey false form)) with (transform form).
  emit. len. destruct (inte_eqb _ _); key_difference; assumption.
Qed.

Lemma espSection_withGreKey len :
  Forall2 (keyDifference len)
    (emitted (espSection (withGreKey true form)) (len + 4)%num)
    (emitted (espSection (withGreKey false form)) len).
Proof.
  rewrite !emitted_espSection, !emitted_espCombinedIcv, !emitted_espHmacIcv.
  change (espTriggered (withGreKey true form)) with (espTriggered form).
  change (espTriggered (withGreKey false form)) with (espTriggered form).
  change (isGcm (withGreKey true form)) with (isGcm form).
  change (isGcm (withGreKey false form)) with (isGcm form).
  change (isGmac (withGreKey true form)) with (isGmac form).
  change (isGmac (withGreKey false form)) with (isGmac form).
  change (transform (withGreKey true form)) with (transform form).
  change (transform (withGreKey false form)) with (transform form).
  destruct (espTriggered form); [ | constructor ].
  repeat first
    [ apply espCipher_withGreKey | apply espGmac_withGreKey
    | apply keyDifference_refl | apply Forall2_app ].
Qed.

Lemma calculatePacket_withGreKey :
  Forall2 (keyDifference (paddingBase (withGreKey false form)))
    (calculatePacket (withGreKey true form)) (calculatePacket (withGreKey false form)).
Proof.
  rewrite !calculatePacket_parts, paddingBase_withGreKey,
    lengthAccounting_withGreKey.
  repeat apply Forall2_app.
  - apply keyDifference_refl.
  - apply authenticationHeader_withGreKey.
  - apply espSection_withGreKey.
Qed.

End GreKey.

(** The GRE headers of a run with GRE: one for each call of
    [setInnerdata], with the key or without it. *)
Lemma innerData_greHeader form :
  form.(tunnelSetting).(gre) = true ->
  filter isGreHeader (innerData form)
  = [if form.(tunnelSetting).(greKey)
     then field "GRE Header + Tunnel Key" 8 else field "GRE Header" 4].
Proof.
  destruct_form form. cbn [tunnelSetting gre greKey]. intros ->.
  destruct mode, ip, gk; reflexivity.
Qed.

Lemma lengthAccounting_greHeader form len :
  filter isGreHeader (emitted (lengthAccounting form) len) = [].
Proof.
  destruct_form form. destruct mode, ip, nat, g, gk; reflexivity.
Qed.

Lemma authenticationHeader_greHeader form len :
  filter isGreHeader (emitted (authenticationHeader form) len)
  = if negb (ah_eqb form.(transform).(ahInte) AhNone)
       && (encr_eqb form.(transform).(espEncr) EncrNone
           && inte_eqb form.(transform).(espInte) InteNone)
    then filter isGreHeader (innerData form) else [].
Proof.
  unfold authenticationHeader. emit.
  destruct (negb _); [ | reflexivity ].
  cbn [andb]. rewrite !filter_app.
  destruct (encr_eqb _ _ && inte_eqb _ _),
    (ah_eqb _ AH_MD5_HMAC), (ah_eqb _ AH_SHA_HMAC); reflexivity.
Qed.

Lemma espCipher_greHeader form len :
  filter isGreHeader (emitted (espCipher form) len)
  = if encr_eqb form.(transform).(espEncr) EncrNone
    then [] else filter isGreHeader (innerData form).
Proof.
  unfold espCipher.
  destruct (espEncr (transform form)); emit; len; rewrite ?filter_app;
    cbn [filter isGreHeader text field grouped String.prefix app encr_eqb];
    rewrite ?app_nil_r; reflexivity.
Qed.

Lemma espGmac_greHeader form len :
  filter isGreHeader (emitted (espGmac form) len)
  = if isGmac form then filter isGreHeader (innerData form) else [].
Proof.
  unfold espGmac, isGmac. emit. len.
  destruct (inte_eqb _ _); rewrite ?filter_app;
    cbn [filter isGreHeader text field grouped String.prefix app];
    rewrite ?app_nil_r; reflexivity.
Qed.

Lemma espSection_greHeader form len :
  filter isGreHeader (emitted (espSection form) len)
  = if espTriggered form
    then filter isGreHeader (emitted (espCipher form) len)
         ++ filter isGreHeader (emitted (espGmac form) len)
    else [].
Proof.
  rewrite emitted_espSection, emitted_espCombinedIcv, emitted_espHmacIcv.
  destruct (espTriggered form); [ | reflexivity ].
  rewrite !filter_app.
  destruct (isGcm form || isGmac form), (hmacIcvSize _);
    cbn [filter app isGreHeader text grouped espIcv String.prefix];
    rewrite ?app_nil_r; reflexivity.
Qed.

Lemma calculatePacket_greHeaders form :
  form.(tunnelSetting).(gre) = true ->
  filter isGreHeader (calculatePacket form)
  = map (fun _ => if form.(tunnelSetting).(greKey)
                  then field "GRE Header + Tunnel Key" 8
                  else field "GRE Header" 4)
        (filter (isPayload form) (calculatePacket form)).
Proof.
  intros G. pose proof (innerData_greHeader form G) as I.
  rewrite calculatePacket_parts, !filter_app, !map_app.
  rewrite lengthAccounting_greHeader, lengthAccounting_no_payload.
  rewrite authenticationHeader_greHeader, authenticationHeader_payload.
  rewrite espSection_greHeader, espSection_payload.
  rewrite espCipher_greHeader, espCipher_payload.
  rewrite espGmac_greHeader, espGmac_payload. rewrite I.
  unfold espTriggered, isGmac.
  destruct (ahInte (transform form)), (espEncr (transform form)),
    (espInte (transform form)); reflexivity.
Qed.

(** C8, as the code has it. Of two configurations with GRE that differ in the GRE key
    only, the outputs have the same fields at the same places, except that
    the GRE header is "GRE Header + Tunnel Key" of 8 bytes with the key and
    "GRE Header" of 4 bytes without it, and that each "ESP Pad" is computed
    from a padding base that is 4 bytes larger with the key.  Each run has
    one GRE header for each payload, and these are its only fields named
    "GRE Header ...". *)
Theorem C8_gre_key_difference (form : IFormState) :
  form.(tunnelSetting).(gre) = true ->
  Forall2 (keyDifference (paddingBase (withGreKey false form)))
    (calculatePacket (withGreKey true form))
    (calculatePacket (withGreKey false form))
  /\ paddingBase (withGreKey true form)
     = (paddingBase (withGreKey false form) + 4)%num
  /\ filter isGreHeader (calculatePacket (withGreKey true form))
     = map (fun _ => field "GRE Header + Tunnel Key" 8)
           (filter (isPayload form) (calculatePacket (withGreKey true form)))
  /\ filter isGreHeader (calculatePacket (withGreKey false form))
     = map (fun _ => field "GRE Header" 4)
           (filter (isPayload form) (calculatePacket (withGreKey false form))).
Proof.
  intros G. split; [ | split; [ | split ] ].
  - apply calculatePacket_withGreKey, G.
  - apply paddingBase_withGreKey, G.
  - apply (calculatePacket_greHeaders (withGreKey true form) G).
  - apply (calculatePacket_greHeaders (withGreKey false form) G).
Qed.

Lemma C8_gre_key_difference_witness :
  Forall2 (keyDifference 124)
    (calculatePacket (withGreKey true greFormValues))
    (calculatePacket (withGreKey false greFormValues))
  /\ paddingBase (withGreKey true greFormValues) = Int (124 + 4)
  /\ filter isGreHeader (calculatePacket (withGreKey true greFormValues))
     = [field "GRE Header + Tunnel Key" 8]
  /\ filter isGreHeader (calculatePacket (withGreKey false greFormValues))
     = [field "GRE Header" 4].
Proof.
  apply (C8_gre_key_difference greFormValues). reflexivity.
Defined.

(** C8 does not hold with a difference in size only: the GRE header differs
    in its label too. *)
Lemma C8_counterexample :
  ~ Forall2 sameButSize
      (calculatePacket (withGreKey true greFormValues))
      (calculatePacket (withGreKey false greFormValues))
  /\ nth_error (calculatePacket (withGreKey true greFormValues)) 5
     = Some (field "GRE Header + Tunnel Key" 8)
  /\ nth_error (calculatePacket (withGreKey false greFormValues)) 5
     = Some (field "GRE Header" 4).
Proof.
  split; [ | split; reflexivity ].
  intros H.
  assert (E : map text (calculatePacket (withGreKey true greFormValues))
              = map text (calculatePacket (withGreKey false greFormValues))).
  { induction H as [| a b l l' [Ht _] _ IH]; cbn; congruence. }
  vm_compute in E. discriminate E.
Qed.

(* ================================================================== *)
(** ** The padding base and the inner data *)

Lemma sumBytes_innerData form : sumBytes (innerData form) = paddingBase form.
Proof.
  destruct_size form;
    destruct mode, ip, nat, g, gk; run; int_eq.
Qed.

(** With exactly one pad, exactly one of the cipher block and the GMAC block
    runs: an optional IV, the inner data, the pad. *)
Lemma one_pad_shape form len :
  List.length (padBlocks form) = 1%nat ->
  exists iv b,
    emitted (espCipher form) len ++ emitted (espGmac form) len
    = iv ++ innerData form ++ [espPad len b]
    /\ In b (padBlocks form)
    /\ (iv = [] \/ exists n, iv = [field "ESP IV" n])
    /\ espTriggered form = true
    /\ encr_eqb form.(transform).(espEncr) EncrNone
       && inte_eqb form.(transform).(espInte) InteNone = false.
Proof.
  unfold padBlocks, espCipher, espGmac, espTriggered.
  destruct (espEncr (transform form)), (espInte (transform form));
    cbn [blockSize inte_eqb encr_eqb app List.length negb orb andb when];
    intros H; try discriminate H; emit; len; rewrite ?app_nil_r;
    try (exists [], 4; cbn [app In]; now eauto 10);
    try (exists [field "ESP IV" 8], 8; cbn [app In]; now eauto 10);
    try (exists [field "ESP IV" 8], 4; cbn [app In]; now eauto 10);
    try (exists [field "ESP IV" 16], 16; cbn [app In]; now eauto 10).
Qed.

Lemma iv_no_payload form iv :
  iv = [] \/ (exists n, iv = [field "ESP IV" n]) ->
  filter (isPayload form) iv = [] /\ filter (hasText "ESP Pad") iv = [].
Proof.
  intros [-> | [n ->]]; [ now split | ].
  destruct_form form. destruct ip; split; reflexivity.
Qed.

(** C10. When the output has exactly one "ESP Pad", it is the pad of the
    padding base, it follows the fields of the one call of [setInnerdata] of
    the run (no payload and no pad is pushed before or after), and the
    padding base is the sum of the sizes of these fields. *)
Theorem C10_padding_base_is_inner_data (form : IFormState) :
  List.length (filter (hasText "ESP Pad") (calculatePacket form)) = 1%nat ->
  exists before after (b : Z),
    calculatePacket form
    = before ++ emitted (setInnerdata form) (paddingBase form)
        ++ grouped "ESP Pad" (getPadSize (paddingBase form) b) "ESP Trailer"
        :: after
    /\ In b (padBlocks form)
    /\ filter (isPayload form) before = []
    /\ filter (isPayload form) after = []
    /\ filter (hasText "ESP Pad") before = []
    /\ filter (hasText "ESP Pad") after = []
    /\ paddingBase form
       = sumBytes (emitted (setInnerdata form) (paddingBase form)).
Proof.
  intros H. rewrite calculatePacket_pads, length_map in H.
  destruct (one_pad_shape form (paddingBase form) H)
    as (iv & b & E & Hb & Hiv & T & A).
  destruct (iv_no_payload form Hiv) as [Iv1 Iv2].
  exists (emitted (lengthAccounting form) 0
          ++ emitted (authenticationHeader form) (paddingBase form)
          ++ [grouped "SPI" 4 "ESP Header"; grouped "Sequence" 4 "ESP Header"]
          ++ iv),
         ([grouped "Pad Length" 1 "ESP Trailer";
           grouped "Next Header" 1 "ESP Trailer"]
          ++ emitted (espCombinedIcv form) (paddingBase form)
          ++ emitted (espHmacIcv form) (paddingBase form)),
         b.
  rewrite emitted_setInnerdata, sumBytes_innerData.
  repeat split.
  - rewrite calculatePacket_parts, emitted_espSection, T.
    rewrite (app_assoc (emitted (espCipher form) _)), E.
    rewrite <- !app_assoc. reflexivity.
  - exact Hb.
  - rewrite !filter_app, lengthAccounting_no_payload,
      authenticationHeader_payload, A, andb_false_r, Iv1.
    destruct_form form. destruct ip; reflexivity.
  - rewrite emitted_espCombinedIcv, emitted_espHmacIcv.
    destruct (isGcm form || isGmac form), (hmacIcvSize _);
      destruct_form form; destruct ip; reflexivity.
  - rewrite !filter_app, lengthAccounting_no_trailer,
      authenticationHeader_no_trailer, Iv2 by auto.
    reflexivity.
  - rewrite emitted_espCombinedIcv, emitted_espHmacIcv.
    destruct (isGcm form || isGmac form), (hmacIcvSize _); reflexivity.
Qed.

Lemma C10_padding_base_is_inner_data_witness :
  exists before after (b : Z),
    calculatePacket defaultFormValues
    = before ++ emitted (setInnerdata defaultFormValues) 100
        ++ grouped "ESP Pad" (getPadSize 100 b) "ESP Trailer" :: after
    /\ In b [16]
    /\ filter (isPayload defaultFormValues) before = []
    /\ filter (isPayload defaultFormValues) after = []
    /\ filter (hasText "ESP Pad") before = []
    /\ filter (hasText "ESP Pad") after = []
    /\ Int 100 = sumBytes (emitted (setInnerdata defaultFormValues) 100).
Proof.
  apply (C10_padding_base_is_inner_data defaultFormValues). reflexivity.
Defined.

(* ================================================================== *)
(** ** Further properties of the composer *)

Lemma sumBytes_app ds1 ds2 :
  sumBytes (ds1 ++ ds2) = (sumBytes ds1 + sumBytes ds2)%num.
Proof.
  unfold sumBytes. induction ds1 as [| d ds1 IH]; cbn [app fold_right].
  - now rewrite nadd_0_l.
  - now rewrite IH, nadd_assoc.
Qed.

(** X1. Without GRE the GRE key switch, which the form then hides but keeps,
    has no effect on the output. *)
Theorem greKey_ignored_without_gre (form : IFormState) (k : bool) :
  form.(tunnelSetting).(gre) = false ->
  calculatePacket (withGreKey k form) = calculatePacket form.
Proof.
  destruct_form form. cbn [tunnelSetting gre]. intros ->.
  unfold withGreKey.
  cbn [packetSize transform transport tunnelSetting gre].
  rewrite !calculatePacket_parts.
  assert (I : forall k', innerData (mkForm ps (mkTransform ah enc inte mode)
                                      (mkTransport ip nat) (mkTunnel false k'))
                         = innerData (mkForm ps (mkTransform ah enc inte mode)
                                        (mkTransport ip nat)
                                        (mkTunnel false false)))
    by (intros k'; destruct k', mode; reflexivity).
  assert (P : forall k', paddingBase (mkForm ps (mkTransform ah enc inte mode)
                                        (mkTransport ip nat) (mkTunnel false k'))
                         = paddingBase (mkForm ps (mkTransform ah enc inte mode)
                                          (mkTransport ip nat)
                                          (mkTunnel false false)))
    by (intros k'; destruct k', mode; reflexivity).
  rewrite (P k), (P gk).
  replace (emitted (lengthAccounting
                      (mkForm ps (mkTransform ah enc inte mode)
                         (mkTransport ip nat) (mkTunnel false k))) 0)
    with (emitted (lengthAccounting
                     (mkForm ps (mkTransform ah enc inte mode)
                        (mkTransport ip nat) (mkTunnel false gk))) 0)
    by (destruct k, gk, mode, nat; reflexivity).
  apply f_equal. apply f_equal2.
  - unfold authenticationHeader. emit. rewrite (I k), (I gk). reflexivity.
  - rewrite !emitted_espSection. unfold espCipher, espGmac.
    cbn [transform espEncr espInte].
    destruct enc; emit; len; rewrite ?(I k), ?(I gk); reflexivity.
Qed.

Lemma greKey_ignored_without_gre_witness :
  calculatePacket (withGreKey true defaultFormValues)
  = calculatePacket defaultFormValues.
Proof.
  apply (greKey_ignored_without_gre defaultFormValues true). reflexivity.
Defined.
Lemma natTraversal_first form :
  exists rest,
    calculatePacket form
    = field (if mode_eqb form.(transform).(tunnelMode) Tunnel
                || form.(tunnelSetting).(gre)
             then "New " ++ ver form ++ " Header for IPsec"
             else "Original " ++ ver form ++ " Header")%string
            (headerSize form.(transport).(ipProtocol))
      :: rest.
Proof.
  rewrite calculatePacket_parts. destruct_form form.
  destruct mode, ip, nat, g, gk; eexists; reflexivity.
Qed.

(** X2. The output always starts with the outer IP header, of 20 or 40
    bytes; NAT traversal puts one 8-byte UDP header right after it and
    changes nothing else. *)
Theorem natTraversal_adds_udp_header (form : IFormState) :
  exists rest,
    calculatePacket (withNatTraver false form)
    = field (if mode_eqb form.(transform).(tunnelMode) Tunnel
                || form.(tunnelSetting).(gre)
             then "New " ++ ver form ++ " Header for IPsec"
             else "Original " ++ ver form ++ " Header")%string
            (headerSize form.(transport).(ipProtocol))
      :: rest
    /\ calculatePacket (withNatTraver true form)
       = field (if mode_eqb form.(transform).(tunnelMode) Tunnel
                   || form.(tunnelSetting).(gre)
                then "New " ++ ver form ++ " Header for IPsec"
                else "Original " ++ ver form ++ " Header")%string
               (headerSize form.(transport).(ipProtocol))
         :: field "UDP Header (NAT-T)" 8 :: rest.
Proof.
  destruct_form form. unfold withNatTraver.
  cbn [packetSize transform transport tunnelSetting ipProtocol tunnelMode gre].
  set (f0 := mkForm ps (mkTransform ah enc inte mode) (mkTransport ip false)
               (mkTunnel g gk)).
  set (f1 := mkForm ps (mkTransform ah enc inte mode) (mkTransport ip true)
               (mkTunnel g gk)).
  exists (emitted (authenticationHeader f0) (paddingBase f0)
          ++ emitted (espSection f0) (paddingBase f0)).
  rewrite !calculatePacket_parts.
  replace (paddingBase f1) with (paddingBase f0)
    by (subst f0 f1; destruct mode, g, gk; reflexivity).
  replace (emitted (authenticationHeader f1) (paddingBase f0))
    with (emitted (authenticationHeader f0) (paddingBase f0))
    by reflexivity.
  replace (emitted (espSection f1) (paddingBase f0))
    with (emitted (espSection f0) (paddingBase f0))
    by reflexivity.
  subst f0 f1. split; destruct mode, ip, g, gk; reflexivity.
Qed.

Lemma espPad_aligned (l b : Z) :
  0 < b ->
  exists p,
    (espPad l b).(bytes) = Int p /\ 0 <= p < b /\ (l + p + 2) mod b = 0.
Proof.
  intros Hb. destruct (getPadSize_aligned l Hb) as (p & E & R & A).
  exists p. split; [ exact E | ]. split; [ exact R | ].
  replace (l + p + 2) with (l + 2 + p) by lia. exact A.
Qed.

(** X3. For an integer packet size every "ESP Pad" of the output is
    shorter than its own block (the cipher's for the first pad, 4 for the
    pad of the GMAC block) and fills the inner data together with the two
    bytes "Pad Length" and "Next Header" up to a multiple of that block
    size. *)
Theorem esp_pad_aligns_inner_data (form : IFormState) (z : Z) :
  form.(packetSize) = Int z ->
  exists inner,
    sumBytes (emitted (setInnerdata form) (paddingBase form)) = Int inner
    /\ Forall2 (fun d b =>
                  exists p,
                    d.(bytes) = Int p
                    /\ 0 <= p < b
                    /\ (inner + p + 2) mod b = 0)
               (filter (hasText "ESP Pad") (calculatePacket form))
               (padBlocks form).
Proof.
  intros E. destruct (paddingBase_Int form E) as (l & L & _).
  rewrite calculatePacket_pads, emitted_setInnerdata, sumBytes_innerData, L.
  exists l. split; [ reflexivity | ].
  unfold padBlocks.
  destruct (espEncr (transform form)), (inte_eqb _ _); cbn [blockSize map app];
    repeat constructor; apply espPad_aligned; lia.
Qed.

Lemma esp_pad_aligns_inner_data_witness :
  exists inner,
    sumBytes (emitted (setInnerdata defaultFormValues)
                (paddingBase defaultFormValues)) = Int inner
    /\ Forall2 (fun d b =>
                  exists p,
                    d.(bytes) = Int p
                    /\ 0 <= p < b
                    /\ (inner + p + 2) mod b = 0)
               (filter (hasText "ESP Pad") (calculatePacket defaultFormValues))
               [16].
Proof.
  apply (@esp_pad_aligns_inner_data defaultFormValues 100). reflexivity.
Defined.

Lemma laterRuleFires_acceptedTransform form :
  laterRuleFires form = negb (acceptedTransform form.(transform)).
Proof.
  destruct_form form. destruct enc, inte, ah; reflexivity.
Qed.

Lemma validateForm_acceptedTransform (form : IFormState) :
  validateForm form = ""%string <->
  (form.(packetSize) = NaN
   \/ (headerSize form.(transport).(ipProtocol) + 8 <= form.(packetSize)
       <= 64000)%num)
  /\ acceptedTransform form.(transform) = true.
Proof.
  rewrite validateForm_valid, sizeRejected_false,
    laterRuleFires_acceptedTransform, negb_false_iff.
  reflexivity.
Qed.

(** X4. The validator accepts a configuration exactly when the packet size
    is NaN or between [headerSize + 8] and 64000, and the transform is one
    of: AH alone; GMAC alone; GCM without a separate integrity algorithm;
    DES, AES or NULL with any integrity algorithm but GMAC, or none.  AH may
    be added to all but GMAC.  Tunnel mode, NAT-T and GRE play no part. *)
Theorem validateForm_accepts (form : IFormState) :
  validateForm form = ""%string <->
  (form.(packetSize) = NaN
   \/ (headerSize form.(transport).(ipProtocol) + 8 <= form.(packetSize)
       <= 64000)%num)
  /\ acceptedTransform form.(transform) = true.
Proof.
  apply validateForm_acceptedTransform.
Qed.

(* ================================================================== *)
(** ** The inner packet in the output *)

Lemma innerData_original form :
  filter isOriginal (innerData form)
  = (if form.(tunnelSetting).(gre)
        || mode_eqb form.(transform).(tunnelMode) Tunnel
     then [field (originalHeaderText form) (ipHeaderSize form)] else [])
    ++ [payloadField form].
Proof.
  destruct_form form. destruct mode, ip, g, gk; reflexivity.
Qed.

Lemma lengthAccounting_original form len :
  filter isOriginal (emitted (lengthAccounting form) len)
  = if form.(tunnelSetting).(gre)
       || mode_eqb form.(transform).(tunnelMode) Tunnel
    then [] else [field (originalHeaderText form) (ipHeaderSize form)].
Proof.
  destruct_form form. destruct mode, ip, nat, g, gk; reflexivity.
Qed.

Lemma authenticationHeader_original form len :
  filter isOriginal (emitted (authenticationHeader form) len)
  = if negb (ah_eqb form.(transform).(ahInte) AhNone)
       && (encr_eqb form.(transform).(espEncr) EncrNone
           && inte_eqb form.(transform).(espInte) InteNone)
    then filter isOriginal (innerData form) else [].
Proof.
  unfold authenticationHeader. emit.
  destruct (negb _); [ | reflexivity ].
  cbn [andb]. rewrite !filter_app.
  destruct (encr_eqb _ _ && inte_eqb _ _),
    (ah_eqb _ AH_MD5_HMAC), (ah_eqb _ AH_SHA_HMAC); reflexivity.
Qed.

Lemma espCipher_original form len :
  filter isOriginal (emitted (espCipher form) len)
  = if encr_eqb form.(transform).(espEncr) EncrNone
    then [] else filter isOriginal (innerData form).
Proof.
  unfold espCipher.
  destruct (espEncr (transform form)); emit; len; rewrite ?filter_app;
    cbn [filter isOriginal text field grouped String.prefix app encr_eqb];
    rewrite ?app_nil_r; reflexivity.
Qed.

Lemma espGmac_original form len :
  filter isOriginal (emitted (espGmac form) len)
  = if isGmac form then filter isOriginal (innerData form) else [].
Proof.
  unfold espGmac, isGmac. emit. len.
  destruct (inte_eqb _ _); rewrite ?filter_app;
    cbn [filter isOriginal text field grouped String.prefix app];
    rewrite ?app_nil_r; reflexivity.
Qed.

Lemma espSection_original form len :
  filter isOriginal (emitted (espSection form) len)
  = if espTriggered form
    then filter isOriginal (emitted (espCipher form) len)
         ++ filter isOriginal (emitted (espGmac form) len)
    else [].
Proof.
  rewrite emitted_espSection, emitted_espCombinedIcv, emitted_espHmacIcv.
  destruct (espTriggered form); [ | reflexivity ].
  rewrite !filter_app.
  destruct (isGcm form || isGmac form), (hmacIcvSize _);
    cbn [filter app isOriginal text grouped espIcv String.prefix];
    rewrite ?app_nil_r; reflexivity.
Qed.

(** X5. In the output of an accepted configuration the fields labelled
    "Original ..." are exactly the original header followed by the original
    payload, once each, and their sizes add up to the packet size. *)
Theorem inner_packet_once (form : IFormState) :
  validateForm form = ""%string ->
  filter isOriginal (calculatePacket form)
  = [ field ("Original " ++ ver form ++ " Header")%string
            (headerSize form.(transport).(ipProtocol));
      field ("Original " ++ ver form ++ " Payload")%string
            (form.(packetSize) - headerSize form.(transport).(ipProtocol)) ]
  /\ sumBytes (filter isOriginal (calculatePacket form)) = form.(packetSize).
Proof.
  intros V.
  assert (E : filter isOriginal (calculatePacket form)
              = [ field (originalHeaderText form) (ipHeaderSize form);
                  payloadField form ]).
  { apply validateForm_acceptedTransform in V. destruct V as [_ T].
    rewrite calculatePacket_parts, !filter_app, lengthAccounting_original,
      authenticationHeader_original, espSection_original,
      espCipher_original, espGmac_original, innerData_original.
    unfold espTriggered, isGmac, acceptedTransform in *.
    destruct (espEncr (transform form)), (espInte (transform form)),
      (ahInte (transform form)); try discriminate T;
      cbn [encr_eqb inte_eqb ah_eqb negb andb orb app];
      destruct (gre (tunnelSetting form) || mode_eqb _ _); reflexivity. }
  rewrite E. unfold originalHeaderText, payloadField, payloadText.
  rewrite ipHeaderSize_headerSize. split; [ reflexivity | ].
  unfold sumBytes. cbn [fold_right bytes field].
  destruct (packetSize form); cbn [nadd nsub]; int_eq.
Qed.

Lemma inner_packet_once_witness :
  filter isOriginal (calculatePacket defaultFormValues)
  = [ field "Original IPv4 Header" 20; field "Original IPv4 Payload" (100 - 20) ]
  /\ sumBytes (filter isOriginal (calculatePacket defaultFormValues)) = 100.
Proof.
  apply (inner_packet_once defaultFormValues). reflexivity.
Defined.

(* ================================================================== *)
(** ** The size of the whole packet *)

(** Equations between sums of numbers: the padding base and the pads are
    taken as numbers of their own. *)
Ltac num_atoms :=
  repeat match goal with
         | |- context [getPadSize ?a ?b] =>
             let x := fresh "pad" in set (x := getPadSize a b); clearbody x
         | |- context [paddingBase ?f] =>
             let x := fresh "base" in set (x := paddingBase f); clearbody x
         end;
  num.

Ltac sum_bytes :=
  rewrite ?sumBytes_app, ?sumBytes_innerData;
  unfold sumBytes; cbn [fold_right bytes field grouped espIcv espPad].

Lemma sumBytes_lengthAccounting form len :
  sumBytes (emitted (lengthAccounting form) len)
  = (headerSize form.(transport).(ipProtocol)
     + (if form.(transport).(natTraver) then 8 else 0))%num.
Proof.
  destruct_form form. destruct mode, ip, nat, g, gk; reflexivity.
Qed.

Lemma sumBytes_authenticationHeader form len :
  sumBytes (emitted (authenticationHeader form) len)
  = if ah_eqb form.(transform).(ahInte) AhNone then Int 0
    else (24 + (if encr_eqb form.(transform).(espEncr) EncrNone
                   && inte_eqb form.(transform).(espInte) InteNone
                then paddingBase form else 0))%num.
Proof.
  unfold authenticationHeader. emit.
  destruct (ahInte (transform form)), (encr_eqb _ _ && inte_eqb _ _);
    cbn [ah_eqb negb]; sum_bytes; num_atoms.
Qed.

Lemma sumBytes_espCipher form len :
  sumBytes (emitted (espCipher form) len)
  = match form.(transform).(espEncr) with
    | EncrNone => Int 0
    | ESP_DES_3DES => 8 + paddingBase form + getPadSize len 8
    | ESP_AES_128_192_256 => 16 + paddingBase form + getPadSize len 16
    | ESP_GCM_128_192_256 => 8 + paddingBase form + getPadSize len 4
    | ESP_NULL => paddingBase form + getPadSize len 4
    end%num.
Proof.
  unfold espCipher.
  destruct (espEncr (transform form)); emit; len; sum_bytes; num_atoms.
Qed.

Lemma sumBytes_espGmac form len :
  sumBytes (emitted (espGmac form) len)
  = if isGmac form then (8 + paddingBase form + getPadSize len 4)%num
    else 0.
Proof.
  unfold espGmac, isGmac. emit. len.
  destruct (inte_eqb _ _); sum_bytes; num_atoms.
Qed.

Lemma sumBytes_espSection form len :
  sumBytes (emitted (espSection form) len)
  = if espTriggered form
    then (10 + sumBytes (emitted (espCipher form) len)
          + sumBytes (emitted (espGmac form) len)
          + (if isGcm form || isGmac form then 16 else 0)
          + match hmacIcvSize form.(transform).(espInte) with
            | Some n => n
            | None => 0
            end)%num
    else 0.
Proof.
  rewrite emitted_espSection, emitted_espCombinedIcv, emitted_espHmacIcv.
  destruct (espTriggered form); [ | reflexivity ].
  rewrite !sumBytes_app.
  generalize (sumBytes (emitted (espCipher form) len)).
  generalize (sumBytes (emitted (espGmac form) len)).
  intros sg sc.
  destruct (isGcm form || isGmac form), (hmacIcvSize _);
    unfold sumBytes; cbn [fold_right bytes grouped espIcv]; num.
Qed.

(** For an integer packet size that the validator accepts the sum of the
    sizes is an integer between 10 and 193 above it. *)
Lemma accepted_total_bounds form z :
  validateForm form = ""%string ->
  form.(packetSize) = Int z ->
  exists total,
    sumBytes (calculatePacket form) = Int total
    /\ z + 10 <= total <= z + 193.
Proof.
  intros V E. apply validateForm_acceptedTransform in V. destruct V as [_ T].
  destruct (paddingBase_Int form E) as (l & L & B).
  assert (H : 20 <= headerSize form.(transport).(ipProtocol) <= 40)
    by (destruct (ipProtocol (transport form)); cbn; lia).
  rewrite calculatePacket_parts, !sumBytes_app, sumBytes_lengthAccounting,
    sumBytes_authenticationHeader, sumBytes_espSection, sumBytes_espCipher,
    sumBytes_espGmac, L.
  destruct (getPadSize_aligned l (b := 4) ltac:(lia)) as (p4 & E4 & R4 & _).
  destruct (getPadSize_aligned l (b := 8) ltac:(lia)) as (p8 & E8 & R8 & _).
  destruct (getPadSize_aligned l (b := 16) ltac:(lia))
    as (p16 & E16 & R16 & _).
  rewrite ?E4, ?E8, ?E16.
  unfold espTriggered, isGcm, isGmac, acceptedTransform in *.
  destruct (natTraver (transport form));
    destruct (espEncr (transform form)), (espInte (transform form)),
      (ahInte (transform form)); try discriminate T;
    cbn [encr_eqb inte_eqb ah_eqb negb andb orb hmacIcvSize nadd];
    eexists; (split; [ reflexivity | lia ]).
Qed.

(** X6. For an integer packet size that the validator accepts the whole
    packet is between 10 and 193 bytes longer than the inner packet. *)
Theorem overhead_bounds (form : IFormState) (z : Z) :
  validateForm form = ""%string ->
  form.(packetSize) = Int z ->
  (z + 10 <= sumBytes (calculatePacket form) <= z + 193)%num.
Proof.
  intros V E. destruct (accepted_total_bounds form V E) as (t & -> & B).
  cbn [nle nadd]. lia.
Qed.

Lemma overhead_bounds_witness :
  (100 + 10 <= sumBytes (calculatePacket defaultFormValues) <= 100 + 193)%num.
Proof.
  apply (@overhead_bounds defaultFormValues 100); reflexivity.
Defined.

(** Both bounds are reached. *)
Example overhead_least :
  validateForm (mkForm 30 (mkTransform AhNone ESP_NULL InteNone Transport)
                  (mkTransport IPv4 false) (mkTunnel false false)) = ""%string
  /\ sumBytes (calculatePacket
                 (mkForm 30 (mkTransform AhNone ESP_NULL InteNone Transport)
                    (mkTransport IPv4 false) (mkTunnel false false)))
     = 30 + 10.
Proof. split; vm_compute; reflexivity. Qed.

Example overhead_most :
  validateForm (mkForm 111
                  (mkTransform AH_SHA_HMAC ESP_AES_128_192_256 ESP_SHA_512
                     Tunnel)
                  (mkTransport IPv6 true) (mkTunnel true true)) = ""%string
  /\ sumBytes (calculatePacket
                 (mkForm 111
                    (mkTransform AH_SHA_HMAC ESP_AES_128_192_256 ESP_SHA_512
                       Tunnel)
                    (mkTransport IPv6 true) (mkTunnel true true)))
     = 111 + 193.
Proof. split; vm_compute; reflexivity. Qed.

(* ================================================================== *)
(** ** The boxes of the summary *)

Lemma sumSizes_app bs1 bs2 :
  sumSizes (bs1 ++ bs2) = (sumSizes bs1 + sumSizes bs2)%num.
Proof.
  unfold sumSizes. induction bs1 as [| b bs1 IH]; cbn [app fold_right].
  - now rewrite nadd_0_l.
  - now rewrite IH, nadd_assoc.
Qed.

Lemma sumSizes_single b : sumSizes [b] = b.(size).
Proof. unfold sumSizes. cbn [fold_right]. apply nadd_0_r. Qed.

Lemma findIndex_None {A} (p : A -> bool) l :
  findIndex p l = None -> filter p l = [].
Proof.
  induction l as [| x l IH]; cbn; [ reflexivity | ].
  destruct (p x); [ discriminate | ].
  destruct (findIndex p l); [ discriminate | auto ].
Qed.

(** A found box is the first one that matches, and an update that keeps it
    matching replaces it where it is. *)
Lemma findIndex_modifyAt {A} (p : A -> bool) (f : A -> A) l i :
  findIndex p l = Some i ->
  (forall x, p x = true -> p (f x) = true) ->
  exists b t, filter p l = b :: t /\ filter p (modifyAt i f l) = f b :: t.
Proof.
  intros F K. revert i F.
  induction l as [| x l IH]; intros i F; cbn in F; [ discriminate | ].
  destruct (p x) eqn:P.
  - inversion F; subst i. exists x, (filter p l). cbn. rewrite P, (K x P). auto.
  - destruct (findIndex p l) as [j|] eqn:E; [ | discriminate ].
    inversion F; subst i. destruct (IH j eq_refl) as (b & t & E1 & E2).
    exists b, t. cbn. rewrite P. auto.
Qed.

Lemma filter_modifyAt_other {A} (p q : A -> bool) (f : A -> A) l i :
  findIndex p l = Some i ->
  (forall x, p x = true -> q x = false) ->
  (forall x, q (f x) = q x) ->
  filter q (modifyAt i f l) = filter q l.
Proof.
  intros F D K. revert i F.
  induction l as [| x l IH]; intros i F; cbn in F; [ discriminate | ].
  destruct (p x) eqn:P.
  - inversion F; subst i. cbn. rewrite K, (D x P). reflexivity.
  - destruct (findIndex p l) as [j|] eqn:E; [ | discriminate ].
    inversion F; subst i. cbn. rewrite (IH j eq_refl). reflexivity.
Qed.

Lemma sumSizes_modifyAt (p : IBox -> bool) d l i :
  findIndex p l = Some i ->
  sumSizes (modifyAt i (addToBox d) l) = (sumSizes l + d.(bytes))%num.
Proof.
  revert i. induction l as [| x l IH]; intros i F; cbn in F; [ discriminate | ].
  destruct (p x).
  - inversion F; subst i. unfold sumSizes.
    cbn [modifyAt fold_right addToBox size].
    generalize (fold_right (fun b acc => (size b + acc)%num) (Int 0) l).
    generalize (size x) (bytes d). intros. num.
  - destruct (findIndex p l) as [j|] eqn:E; [ | discriminate ].
    inversion F; subst i. specialize (IH j eq_refl).
    unfold sumSizes in *. cbn [modifyAt fold_right]. rewrite IH.
    apply nadd_assoc.
Qed.

Lemma addDetail_sums colors boxes totalSize d :
  snd (addDetail colors (boxes, totalSize) d) = (totalSize + d.(bytes))%num
  /\ sumSizes (fst (addDetail colors (boxes, totalSize) d))
     = (sumSizes boxes + d.(bytes))%num.
Proof.
  unfold addDetail. split; [ reflexivity | ]. cbn [fst].
  destruct (groupOf d) as [g|].
  - destruct (findIndex _ boxes) as [i|] eqn:F.
    + apply (sumSizes_modifyAt _ _ _ F).
    + rewrite sumSizes_app, sumSizes_single. reflexivity.
  - rewrite sumSizes_app, sumSizes_single. reflexivity.
Qed.

Lemma fold_addDetail_sums colors ds boxes totalSize :
  snd (fold_left (addDetail colors) ds (boxes, totalSize))
  = (totalSize + sumBytes ds)%num
  /\ sumSizes (fst (fold_left (addDetail colors) ds (boxes, totalSize)))
     = (sumSizes boxes + sumBytes ds)%num.
Proof.
  revert boxes totalSize.
  induction ds as [| d ds IH]; intros boxes totalSize; cbn [fold_left].
  - cbn [fst snd]. unfold sumBytes. cbn [fold_right].
    rewrite !nadd_0_r. split; reflexivity.
  - destruct (addDetail colors (boxes, totalSize) d) as [boxes' total'] eqn:E.
    pose proof (addDetail_sums colors boxes totalSize d) as [S1 S2].
    rewrite E in S1, S2. cbn [fst snd] in S1, S2.
    destruct (IH boxes' total') as [I1 I2]. rewrite I1, I2, S1, S2.
    unfold sumBytes. cbn [fold_right]. rewrite <- !nadd_assoc.
    split; reflexivity.
Qed.

(** X7. Whatever the fields and the colours, no byte is lost or counted
    twice: the sizes of the boxes add up to the sum of the sizes of the
    fields, which is the size shown in the last row of the summary,
    "Total IPsec Packet Size". *)
Theorem boxes_conserve_bytes (colors : ColorMap) (ds : list PacketDetail) :
  sumSizes (fst (buildBoxes colors ds)) = sumBytes ds
  /\ snd (buildBoxes colors ds) = sumBytes ds
  /\ summaryRows colors ds
     = fst (buildBoxes colors ds)
       ++ [mkBox None [] "Total IPsec Packet Size" (sumBytes ds)].
Proof.
  unfold summaryRows, buildBoxes.
  destruct (fold_addDetail_sums colors ds [] 0) as [T S].
  destruct (fold_left _ ds _) as [boxes total]. cbn [fst snd] in *.
  unfold sumSizes in S at 2. cbn [fold_right] in S.
  rewrite nadd_0_l in T, S. subst total. auto.
Qed.

Lemma sumBytes_single d : sumBytes [d] = d.(bytes).
Proof. unfold sumBytes. cbn [fold_right]. apply nadd_0_r. Qed.

Lemma groupRow_snoc colors g d0 l d :
  [addToBox d (mkBox (lookup colors g) (map itemOf (d0 :: l)) g
                     (sumBytes (d0 :: l)))]
  = groupRow colors g ((d0 :: l) ++ [d]).
Proof.
  unfold addToBox, groupRow. cbn [color details label size app].
  change (d0 :: l ++ [d]) with ((d0 :: l) ++ [d]).
  rewrite map_app, sumBytes_app, sumBytes_single. reflexivity.
Qed.

Lemma addDetail_groupRow colors g boxes totalSize d l :
  filter (hasLabel g) boxes = groupRow colors g l ->
  (groupOf d = None -> d.(text) <> g) ->
  filter (hasLabel g) (fst (addDetail colors (boxes, totalSize) d))
  = groupRow colors g (l ++ filter (hasGroup g) [d]).
Proof.
  intros I P. unfold addDetail. cbn [fst filter]. unfold hasGroup.
  destruct (groupOf d) as [g'|].
  - change (fun v : IBox => String.eqb (label v) g') with (hasLabel g').
    destruct (String.eqb_spec g' g) as [-> | N].
    + destruct (findIndex (hasLabel g) boxes) as [i|] eqn:F.
      * destruct (findIndex_modifyAt (hasLabel g) (addToBox d) boxes F)
          as (b & t & E1 & E2); [ intros x Hx; exact Hx | ].
        rewrite E2. rewrite E1 in I.
        destruct l as [| d0 l]; [ discriminate I | ].
        inversion I; subst b t. apply groupRow_snoc.
      * apply findIndex_None in F. rewrite F in I.
        destruct l; [ | discriminate I ].
        rewrite filter_app, F. cbn [filter app]. unfold hasLabel at 1.
        cbn [label]. rewrite String.eqb_refl. unfold groupRow, itemOf. cbn [map].
        rewrite sumBytes_single. reflexivity.
    + rewrite app_nil_r.
      assert (D : forall x, hasLabel g' x = true -> hasLabel g x = false).
      { unfold hasLabel. intros x Hx. apply String.eqb_eq in Hx.
        rewrite Hx. now apply String.eqb_neq. }
      destruct (findIndex (hasLabel g') boxes) as [i|] eqn:F.
      * rewrite (filter_modifyAt_other _ (hasLabel g) _ _ F D);
          [ exact I | reflexivity ].
      * rewrite filter_app. cbn [filter]. unfold hasLabel at 2.
        cbn [label]. apply String.eqb_neq in N. rewrite N, app_nil_r.
        exact I.
  - rewrite app_nil_r, filter_app. cbn [filter]. unfold hasLabel at 2.
    cbn [label]. specialize (P eq_refl). apply String.eqb_neq in P.
    rewrite P, app_nil_r. exact I.
Qed.

Lemma fold_addDetail_groupRow colors g ds :
  forall boxes totalSize l,
    filter (hasLabel g) boxes = groupRow colors g l ->
    existsb (fun d => isPlain d && hasText g d) ds = false ->
    filter (hasLabel g)
      (fst (fold_left (addDetail colors) ds (boxes, totalSize)))
    = groupRow colors g (l ++ filter (hasGroup g) ds).
Proof.
  induction ds as [| d ds IH]; intros boxes totalSize l I C.
  - cbn. rewrite app_nil_r. exact I.
  - cbn [existsb] in C. apply orb_false_iff in C. destruct C as [C1 C2].
    cbn [fold_left].
    destruct (addDetail colors (boxes, totalSize) d) as [boxes' total'] eqn:E.
    assert (S : filter (hasLabel g) boxes'
                = groupRow colors g (l ++ filter (hasGroup g) [d])).
    { change boxes' with (fst (boxes', total')). rewrite <- E.
      apply addDetail_groupRow; [ exact I | ].
      intros G T. unfold isPlain, hasText in C1. rewrite G, T in C1.
      rewrite String.eqb_refl in C1. discriminate. }
    rewrite (IH boxes' total' _ S C2), <- app_assoc.
    change (d :: ds) with ([d] ++ ds). rewrite filter_app. reflexivity.
Qed.

Lemma group_row_of_composer colors ds g :
  forallb wellLabelled ds = true ->
  isComposerGroup g = true ->
  filter (hasLabel g) (fst (buildBoxes colors ds))
  = groupRow colors g (filter (hasGroup g) ds).
Proof.
  intros W G. unfold buildBoxes.
  rewrite (fold_addDetail_groupRow colors g ds [] 0 [] eq_refl);
    [ reflexivity | ].
  apply not_true_iff_false. intros E.
  apply existsb_exists in E. destruct E as (d & Hd & E).
  rewrite forallb_forall in W. specialize (W d Hd).
  apply andb_true_iff in E. destruct E as [P T].
  unfold wellLabelled, isPlain, hasText in *.
  destruct (groupOf d); [ discriminate | ].
  apply String.eqb_eq in T. rewrite T, G in W. discriminate.
Qed.

(** X8. When no field without a group carries the name [g] as its text,
    the summary has at most one box labelled [g]; it exists when some field
    has group [g], lists the fields of the group in the order of the packet
    and its size is the sum of their sizes, wherever else in the packet they
    stand. *)
Theorem group_row (colors : ColorMap) (ds : list PacketDetail) (g : string) :
  existsb (fun d => isPlain d && hasText g d) ds = false ->
  filter (hasLabel g) (fst (buildBoxes colors ds))
  = match filter (hasGroup g) ds with
    | [] => []
    | d :: l =>
        [mkBox (lookup colors g) (map itemOf (d :: l)) g (sumBytes (d :: l))]
    end.
Proof.
  intros C. unfold buildBoxes.
  rewrite (fold_addDetail_groupRow colors g ds [] 0 [] eq_refl C).
  cbn [app]. unfold groupRow. destruct (filter (hasGroup g) ds); reflexivity.
Qed.

Lemma group_row_witness :
  filter (hasLabel "ESP Trailer")
    (fst (buildBoxes (colorMap "IPv4") (calculatePacket defaultFormValues)))
  = [mkBox (Some "lightgreen")
       [mkBoxDetail "ESP Pad" 10; mkBoxDetail "Pad Length" 1;
        mkBoxDetail "Next Header" 1; mkBoxDetail "ESP ICV" 12]
       "ESP Trailer" 24].
Proof.
  apply (group_row (colorMap "IPv4") (calculatePacket defaultFormValues)
           "ESP Trailer"). reflexivity.
Defined.

(** Without the hypothesis the box of a group can be the box of an earlier
    field without a group: [findIndex] looks at the label only. *)
Example group_merges_into_plain_box :
  fst (buildBoxes [] [field "ESP Header" 5; grouped "SPI" 4 "ESP Header"])
  = [mkBox None [mkBoxDetail "SPI" 4] "ESP Header" 9].
Proof. reflexivity. Qed.

Lemma filter_modifyAt_found {A} (p q : A -> bool) (f : A -> A) l i :
  findIndex p l = Some i ->
  (forall x, In x l -> p x = true -> q x = false /\ q (f x) = false) ->
  filter q (modifyAt i f l) = filter q l.
Proof.
  revert i. induction l as [| x l IH]; intros i F D; cbn in F;
    [ discriminate | ].
  destruct (p x) eqn:P.
  - inversion F; subst i. cbn.
    destruct (D x (or_introl eq_refl) P) as [-> ->]. reflexivity.
  - destruct (findIndex p l) as [j|] eqn:E; [ | discriminate ].
    inversion F; subst i. cbn.
    rewrite (IH j eq_refl); [ reflexivity | ].
    intros y Hy. apply D. now right.
Qed.

Lemma addDetail_plain colors boxes totalSize d processed :
  filter noDetails boxes = map (plainBox colors) (filter isPlain processed) ->
  (forall g d', groupOf d = Some g -> In d' processed ->
                isPlain d' = true -> d'.(text) <> g) ->
  filter noDetails (fst (addDetail colors (boxes, totalSize) d))
  = map (plainBox colors) (filter isPlain (processed ++ [d])).
Proof.
  intros I C. unfold addDetail. cbn [fst].
  rewrite filter_app, map_app. cbn [filter]. unfold isPlain at 2.
  destruct (groupOf d) as [g|].
  - cbn [map]. rewrite app_nil_r.
    change (fun v : IBox => String.eqb (label v) g) with (hasLabel g).
    destruct (findIndex (hasLabel g) boxes) as [i|] eqn:F.
    + rewrite (filter_modifyAt_found _ noDetails _ _ F); [ exact I | ].
      intros x Hx L. split.
      * destruct (noDetails x) eqn:N; [ exfalso | reflexivity ].
        assert (Hin : In x (filter noDetails boxes))
          by (apply filter_In; auto).
        rewrite I in Hin. apply in_map_iff in Hin.
        destruct Hin as (d' & <- & Hd'). apply filter_In in Hd'.
        destruct Hd' as [Hd' Pl].
        apply (C g d' eq_refl Hd' Pl).
        unfold hasLabel, plainBox in L. cbn [label] in L.
        now apply String.eqb_eq in L.
      * unfold noDetails, addToBox. cbn [details].
        destruct (details x); reflexivity.
    + rewrite filter_app. cbn. rewrite app_nil_r. exact I.
  - rewrite filter_app. cbn. rewrite I. reflexivity.
Qed.

Lemma fold_addDetail_plain colors ds :
  forall boxes totalSize processed,
    filter noDetails boxes
    = map (plainBox colors) (filter isPlain processed) ->
    (forall g d d', In d ds -> groupOf d = Some g ->
                    In d' (processed ++ ds) -> isPlain d' = true ->
                    d'.(text) <> g) ->
    filter noDetails
      (fst (fold_left (addDetail colors) ds (boxes, totalSize)))
    = map (plainBox colors) (filter isPlain (processed ++ ds)).
Proof.
  induction ds as [| d ds IH]; intros boxes totalSize processed I C.
  - cbn. rewrite app_nil_r. exact I.
  - cbn [fold_left].
    destruct (addDetail colors (boxes, totalSize) d) as [boxes' total'] eqn:E.
    assert (S : filter noDetails boxes'
                = map (plainBox colors) (filter isPlain (processed ++ [d]))).
    { change boxes' with (fst (boxes', total')). rewrite <- E.
      apply addDetail_plain; [ exact I | ].
      intros g d' G Hd' Pl. apply (C g d d'); auto.
      - now left.
      - apply in_or_app. now left. }
    replace (processed ++ d :: ds) with ((processed ++ [d]) ++ ds)
      by (rewrite <- app_assoc; reflexivity).
    apply (IH boxes' total' _ S).
    intros g d1 d' H1 G Hd' Pl. apply (C g d1 d'); auto.
    + now right.
    + rewrite <- app_assoc in Hd'. exact Hd'.
Qed.

(** X9. When no field without a group has a text that is the group of a
    field, the boxes without a list of details are the fields without a
    group, one box each, in the order of the packet, labelled with the text
    of the field and of its size: such a field is never merged, not even
    with a field of the same text. *)
Theorem plain_boxes (colors : ColorMap) (ds : list PacketDetail) :
  noClash ds = true ->
  filter noDetails (fst (buildBoxes colors ds))
  = map (fun d => mkBox (lookup colors d.(text)) [] d.(text) d.(bytes))
        (filter isPlain ds).
Proof.
  intros N. unfold buildBoxes.
  apply (fold_addDetail_plain colors ds [] 0 [] eq_refl).
  intros g d d' Hd G Hd' Pl E. cbn [app] in Hd'.
  unfold noClash in N. rewrite forallb_forall in N.
  specialize (N d' Hd'). rewrite Pl in N. cbn [andb] in N.
  apply negb_true_iff in N.
  assert (X : existsb (hasGroup (text d')) ds = true).
  { apply existsb_exists. exists d. split; [ exact Hd | ].
    unfold hasGroup. rewrite G, E. apply String.eqb_refl. }
  congruence.
Qed.

Lemma plain_boxes_witness :
  filter noDetails
    (fst (buildBoxes (colorMap "IPv4") (calculatePacket defaultFormValues)))
  = [ mkBox (Some "navajowhite") [] "New IPv4 Header for IPsec" 20;
      mkBox (Some "palegreen") [] "ESP IV" 16;
      mkBox (Some "khaki") [] "Original IPv4 Header" 20;
      mkBox (Some "palegoldenrod") [] "Original IPv4 Payload" 80 ].
Proof.
  apply (plain_boxes (colorMap "IPv4") (calculatePacket defaultFormValues)).
  reflexivity.
Defined.

(* ================================================================== *)
(** ** The summary of the composer's output *)

Ltac split_forallb :=
  repeat (rewrite forallb_app; apply andb_true_intro; split).

Lemma innerData_wellLabelled form : forallb wellLabelled (innerData form) = true.
Proof. destruct_form form. destruct mode, ip, g, gk; reflexivity. Qed.

Lemma lengthAccounting_wellLabelled form len :
  forallb wellLabelled (emitted (lengthAccounting form) len) = true.
Proof. destruct_form form. destruct mode, ip, nat, g, gk; reflexivity. Qed.

Lemma authenticationHeader_wellLabelled form len :
  forallb wellLabelled (emitted (authenticationHeader form) len) = true.
Proof.
  pose proof (innerData_wellLabelled form).
  unfold authenticationHeader. emit.
  repeat match goal with |- context [if ?c then _ else _] => destruct c end;
    split_forallb; auto.
Qed.

Lemma espSection_wellLabelled form len :
  forallb wellLabelled (emitted (espSection form) len) = true.
Proof.
  pose proof (innerData_wellLabelled form).
  rewrite emitted_espSection, emitted_espCombinedIcv, emitted_espHmacIcv.
  unfold espCipher, espGmac.
  destruct (espTriggered form); [ | reflexivity ].
  destruct (espEncr (transform form)), (inte_eqb _ _),
    (isGcm form || isGmac form), (hmacIcvSize _);
    emit; len; split_forallb; auto.
Qed.

Lemma calculatePacket_wellLabelled form :
  forallb wellLabelled (calculatePacket form) = true.
Proof.
  rewrite calculatePacket_parts. split_forallb.
  - apply lengthAccounting_wellLabelled.
  - apply authenticationHeader_wellLabelled.
  - apply espSection_wellLabelled.
Qed.

Lemma wellLabelled_no_plain ds g :
  forallb wellLabelled ds = true ->
  isComposerGroup g = true ->
  existsb (fun d => isPlain d && hasText g d) ds = false.
Proof.
  intros W G. apply not_true_iff_false. intros E.
  apply existsb_exists in E. destruct E as (d & Hd & E).
  rewrite forallb_forall in W. specialize (W d Hd).
  apply andb_true_iff in E. destruct E as [P T].
  unfold wellLabelled, isPlain, hasText in *.
  destruct (groupOf d); [ discriminate | ].
  apply String.eqb_eq in T. rewrite T, G in W. discriminate.
Qed.

Lemma wellLabelled_noClash ds :
  forallb wellLabelled ds = true -> noClash ds = true.
Proof.
  intros W. unfold noClash. apply forallb_forall. intros d' Hd'.
  apply negb_true_iff, not_true_iff_false. intros E.
  apply andb_true_iff in E. destruct E as [P X].
  apply existsb_exists in X. destruct X as (d & Hd & G).
  rewrite forallb_forall in W.
  pose proof (W d Hd) as Wd. pose proof (W d' Hd') as Wd'.
  unfold wellLabelled, isPlain, hasGroup in *.
  destruct (groupOf d') ; [ discriminate | ].
  destruct (groupOf d) as [g|]; [ | discriminate ].
  apply String.eqb_eq in G. subst g. rewrite Wd in Wd'. discriminate.
Qed.

Section GroupsOfParts.

(** The fields of a group in the parts that have none of it. *)
Variable name : string.

Lemma innerData_no_group form : filter (hasGroup name) (innerData form) = [].
Proof. destruct_form form. destruct mode, ip, g, gk; reflexivity. Qed.

Lemma lengthAccounting_no_group form len :
  filter (hasGroup name) (emitted (lengthAccounting form) len) = [].
Proof. destruct_form form. destruct mode, ip, nat, g, gk; reflexivity. Qed.

End GroupsOfParts.

Lemma authenticationHeader_group form len :
  filter (hasGroup "AH Header") (emitted (authenticationHeader form) len)
  = (if ah_eqb form.(transform).(ahInte) AhNone then []
     else [grouped "Next Header" 1 "AH Header";
           grouped "Payload" 1 "AH Header";
           grouped "Reserved" 2 "AH Header";
           grouped "SPI" 4 "AH Header";
           grouped "Sequence" 4 "AH Header"])
  /\ filter (hasGroup "ESP Header") (emitted (authenticationHeader form) len)
     = []
  /\ filter (hasGroup "ESP Trailer") (emitted (authenticationHeader form) len)
     = [].
Proof.
  unfold authenticationHeader. emit.
  destruct (ahInte (transform form)), (encr_eqb _ _ && inte_eqb _ _);
    cbn [ah_eqb negb];
    rewrite ?filter_app, ?innerData_no_group; repeat split; reflexivity.
Qed.

Lemma espCipher_group form len :
  filter (hasGroup "AH Header") (emitted (espCipher form) len) = []
  /\ filter (hasGroup "ESP Header") (emitted (espCipher form) len) = []
  /\ filter (hasGroup "ESP Trailer") (emitted (espCipher form) len)
     = match blockSize form.(transform).(espEncr) with
       | Some b => [espPad len b]
       | None => []
       end.
Proof.
  unfold espCipher.
  destruct (espEncr (transform form)); emit; len;
    rewrite ?filter_app, ?innerData_no_group; repeat split; reflexivity.
Qed.

Lemma espGmac_group form len :
  filter (hasGroup "AH Header") (emitted (espGmac form) len) = []
  /\ filter (hasGroup "ESP Header") (emitted (espGmac form) len) = []
  /\ filter (hasGroup "ESP Trailer") (emitted (espGmac form) len)
     = if isGmac form then [espPad len 4] else [].
Proof.
  unfold espGmac, isGmac. emit. len.
  destruct (inte_eqb _ _);
    rewrite ?filter_app, ?innerData_no_group; repeat split; reflexivity.
Qed.

Lemma espSection_group form :
  filter (hasGroup "AH Header") (emitted (espSection form) (paddingBase form))
  = []
  /\ filter (hasGroup "ESP Header")
       (emitted (espSection form) (paddingBase form))
     = (if espTriggered form
        then [grouped "SPI" 4 "ESP Header"; grouped "Sequence" 4 "ESP Header"]
        else [])
  /\ filter (hasGroup "ESP Trailer")
       (emitted (espSection form) (paddingBase form))
     = (if espTriggered form then espTrailer form else []).
Proof.
  rewrite emitted_espSection, emitted_espCombinedIcv, emitted_espHmacIcv.
  destruct (espCipher_group form (paddingBase form)) as (C1 & C2 & C3).
  destruct (espGmac_group form (paddingBase form)) as (G1 & G2 & G3).
  unfold espTrailer, padBlocks. fold (isGmac form). rewrite map_app.
  destruct (espTriggered form); [ | repeat split; reflexivity ].
  rewrite !filter_app, C1, C2, C3, G1, G2, G3.
  destruct (blockSize _), (isGmac form), (isGcm form), (hmacIcvSize _);
    repeat split; reflexivity.
Qed.

(** X10. The summary of any configuration follows the two patterns above:
    no field without a group is named like a group.  It has one row
    "AH Header" of 12 bytes with five fields exactly when AH is selected,
    one row "ESP Header" of 8 bytes with SPI and Sequence exactly when ESP is
    used, and then one row "ESP Trailer" with the pads, "Pad Length",
    "Next Header" and the ICVs in this order, of the sum of their sizes. *)
Theorem summary_group_rows (form : IFormState) :
  noClash (calculatePacket form) = true
  /\ filter (hasLabel "AH Header") (appBoxes form)
     = (if ah_eqb form.(transform).(ahInte) AhNone then []
        else [mkBox (Some "lightskyblue")
                [mkBoxDetail "Next Header" 1; mkBoxDetail "Payload" 1;
                 mkBoxDetail "Reserved" 2; mkBoxDetail "SPI" 4;
                 mkBoxDetail "Sequence" 4]
                "AH Header" 12])
  /\ filter (hasLabel "ESP Header") (appBoxes form)
     = (if espTriggered form
        then [mkBox (Some "lightgreen")
                [mkBoxDetail "SPI" 4; mkBoxDetail "Sequence" 4]
                "ESP Header" 8]
        else [])
  /\ filter (hasLabel "ESP Trailer") (appBoxes form)
     = (if espTriggered form
        then [mkBox (Some "lightgreen") (map itemOf (espTrailer form))
                "ESP Trailer" (sumBytes (espTrailer form))]
        else []).
Proof.
  pose proof (calculatePacket_wellLabelled form) as W.
  split; [ now apply wellLabelled_noClash | ].
  destruct (authenticationHeader_group form (paddingBase form))
    as (A1 & A2 & A3).
  destruct (espSection_group form) as (E1 & E2 & E3).
  unfold appBoxes.
  assert (L : forall g, In g composerGroups ->
                        lookup (colorMap (ipName (ipProtocol (transport form)))) g
                        = lookup (colorMap "IPv4") g).
  { intros g Hg. destruct (ipProtocol (transport form)); [ reflexivity | ].
    destruct Hg as [<- | [<- | [<- | []]]]; reflexivity. }
  repeat split.
  - rewrite group_row_of_composer by (exact W || reflexivity).
    rewrite calculatePacket_parts, !filter_app, lengthAccounting_no_group,
      A1, E1, app_nil_r. cbn [app].
    destruct (ah_eqb _ _); [ reflexivity | ].
    unfold groupRow. rewrite L by (cbn; auto). reflexivity.
  - rewrite group_row_of_composer by (exact W || reflexivity).
    rewrite calculatePacket_parts, !filter_app, lengthAccounting_no_group,
      A2, E2. cbn [app].
    destruct (espTriggered form); [ | reflexivity ].
    unfold groupRow. rewrite L by (cbn; auto). reflexivity.
  - rewrite group_row_of_composer by (exact W || reflexivity).
    rewrite calculatePacket_parts, !filter_app, lengthAccounting_no_group,
      A3, E3. cbn [app].
    destruct (espTriggered form); [ | reflexivity ].
    unfold espTrailer.
    destruct (map _ (padBlocks form)); cbn [app]; unfold groupRow;
      rewrite L by (cbn; auto); reflexivity.
Qed.

(* ================================================================== *)
(** ** The colours of the boxes *)

Lemma Forall_modifyAt {A} (P : A -> Prop) (f : A -> A) l i :
  Forall P l -> (forall x, P x -> P (f x)) -> Forall P (modifyAt i f l).
Proof.
  intros H K. revert i. induction H as [| x l Hx Hl IH]; intros i.
  - destruct i; constructor.
  - destruct i; cbn; constructor; auto.
Qed.

Section Labels.

(** Every box carries the colour the map has for its label, and its label is
    the group or else the text of a field. *)
Variable colors : ColorMap.
Variable Q : string -> Prop.

Definition labelled (b : IBox) : Prop :=
  b.(color) = lookup colors b.(label) /\ Q b.(label).

Lemma addDetail_labelled boxes totalSize d :
  Forall labelled boxes -> Q (shownAs d) ->
  Forall labelled (fst (addDetail colors (boxes, totalSize) d)).
Proof.
  intros H Hd. unfold addDetail, shownAs in *. cbn [fst].
  destruct (groupOf d) as [g|].
  - destruct (findIndex _ boxes).
    + apply Forall_modifyAt; [ exact H | ]. intros x Hx. exact Hx.
    + apply Forall_app. split; [ exact H | ].
      constructor; [ | constructor ]. split; [ reflexivity | exact Hd ].
  - apply Forall_app. split; [ exact H | ].
    constructor; [ | constructor ]. split; [ reflexivity | exact Hd ].
Qed.

Lemma fold_addDetail_labelled ds :
  forall boxes totalSize,
    Forall labelled boxes -> Forall (fun d => Q (shownAs d)) ds ->
    Forall labelled (fst (fold_left (addDetail colors) ds (boxes, totalSize))).
Proof.
  induction ds as [| d ds IH]; intros boxes totalSize H Hds; [ exact H | ].
  inversion Hds; subst. cbn [fold_left].
  destruct (addDetail colors (boxes, totalSize) d) as [boxes' total'] eqn:E.
  apply IH; [ | assumption ].
  change boxes' with (fst (boxes', total')). rewrite <- E.
  now apply addDetail_labelled.
Qed.

End Labels.

Lemma innerData_painted form :
  forallb (fun d => painted (colorMap (ver form)) (shownAs d)) (innerData form)
  = true.
Proof. destruct_form form. destruct mode, ip, g, gk; reflexivity. Qed.

Lemma lengthAccounting_painted form len :
  forallb (fun d => painted (colorMap (ver form)) (shownAs d))
          (emitted (lengthAccounting form) len) = true.
Proof. destruct_form form. destruct mode, ip, nat, g, gk; reflexivity. Qed.

Lemma authenticationHeader_painted form len :
  forallb (fun d => painted (colorMap (ver form)) (shownAs d))
          (emitted (authenticationHeader form) len) = true.
Proof.
  pose proof (innerData_painted form) as I.
  unfold authenticationHeader. emit.
  repeat match goal with |- context [if ?c then _ else _] => destruct c end;
    split_forallb; auto;
    destruct_form form; destruct ip; reflexivity.
Qed.

Lemma espSection_painted form len :
  forallb (fun d => painted (colorMap (ver form)) (shownAs d))
          (emitted (espSection form) len) = true.
Proof.
  pose proof (innerData_painted form) as I.
  rewrite emitted_espSection, emitted_espCombinedIcv, emitted_espHmacIcv.
  destruct (espTriggered form); [ | reflexivity ].
  assert (C : forallb (fun d => painted (colorMap (ver form)) (shownAs d))
                      (emitted (espCipher form) len) = true).
  { unfold espCipher.
    destruct (espEncr (transform form)); emit; len; split_forallb; auto;
      destruct_form form; destruct ip; reflexivity. }
  assert (G : forallb (fun d => painted (colorMap (ver form)) (shownAs d))
                      (emitted (espGmac form) len) = true).
  { unfold espGmac. emit. len.
    destruct (inte_eqb _ _); split_forallb; auto;
      destruct_form form; destruct ip; reflexivity. }
  destruct (isGcm form || isGmac form), (hmacIcvSize _);
    split_forallb; auto;
    destruct_form form; destruct ip; reflexivity.
Qed.

Lemma calculatePacket_painted form :
  forallb (fun d => painted (colorMap (ver form)) (shownAs d))
          (calculatePacket form) = true.
Proof.
  rewrite calculatePacket_parts. split_forallb.
  - apply lengthAccounting_painted.
  - apply authenticationHeader_painted.
  - apply espSection_painted.
Qed.

(** X11. Drawn with the IP version it was composed for, every box of the
    output of any configuration has its own colour in the map: the chart
    never falls back to "white". *)
Theorem summary_boxes_painted (form : IFormState) :
  Forall (fun b =>
            exists c,
              b.(color) = Some c
              /\ chartFill (colorMap (ipName form.(transport).(ipProtocol))) b
                 = c
              /\ c <> "white"%string)
         (appBoxes form).
Proof.
  unfold appBoxes, buildBoxes.
  set (colors := colorMap (ipName (ipProtocol (transport form)))).
  pose proof (@fold_addDetail_labelled colors
                (fun name => painted colors name = true)
                (calculatePacket form) [] 0 (Forall_nil _)) as H.
  eapply Forall_impl; [ | apply H ].
  - intros b [Hc Hp]. unfold painted, chartFill in *.
    destruct (lookup colors (label b)) as [c|]; [ | discriminate ].
    apply andb_true_iff in Hp. destruct Hp as [E W].
    apply negb_true_iff in E. apply negb_true_iff in W.
    exists c. rewrite E. repeat split; [ exact Hc | ].
    now apply String.eqb_neq.
  - apply Forall_forall. intros d Hd.
    pose proof (calculatePacket_painted form) as P.
    rewrite forallb_forall in P. apply (P d Hd).
Qed.

Lemma fold_addDetail_head colors ds :
  forall b boxes totalSize,
  exists b' boxes',
    fst (fold_left (addDetail colors) ds (b :: boxes, totalSize))
    = b' :: boxes'
    /\ b'.(color) = b.(color) /\ b'.(label) = b.(label).
Proof.
  induction ds as [| d ds IH]; intros b boxes totalSize.
  - exists b, boxes. auto.
  - cbn [fold_left]. unfold addDetail at 2.
    destruct (groupOf d) as [g|].
    + destruct (findIndex _ (b :: boxes)) as [[| j]|].
      * cbn [modifyAt].
        destruct (IH (addToBox d b) boxes (totalSize + bytes d)%num)
          as (b' & boxes' & E & C & L).
        exists b', boxes'. auto.
      * cbn [modifyAt]. apply IH.
      * cbn [app]. apply IH.
    + cbn [app]. apply IH.
Qed.

(** X12. The colours are found by the exact label, which contains the IP
    version: drawn with the other IP version, as in the render between a
    change of the version and the recomputation of the fields, the outer
    header box has no colour and is filled "white". *)
Theorem outer_header_white_on_other_version (form : IFormState)
    (v : IPVersion) :
  v <> form.(transport).(ipProtocol) ->
  exists b boxes,
    fst (buildBoxes (colorMap (ipName v)) (calculatePacket form)) = b :: boxes
    /\ b.(color) = None
    /\ chartFill (colorMap (ipName v)) b = "white"%string.
Proof.
  intros N.
  destruct (natTraversal_first form) as (rest & E).
  rewrite E. unfold buildBoxes. cbn [fold_left]. unfold addDetail at 2.
  cbn [groupOf field group text bytes app].
  match goal with
  | |- context [fold_left _ rest (?b0 :: ?bs, ?t)] =>
      destruct (fold_addDetail_head (colorMap (ipName v)) rest b0 bs t)
        as (b & boxes & F & C & L)
  end.
  exists b, boxes. split; [ exact F | ].
  unfold chartFill. rewrite C, L. cbn [color label].
  destruct_form form. cbn [transport ipProtocol] in N.
  destruct v, ip; try congruence; destruct mode, g; split; reflexivity.
Qed.

Lemma outer_header_white_on_other_version_witness :
  exists b boxes,
    fst (buildBoxes (colorMap "IPv6") (calculatePacket defaultFormValues))
    = b :: boxes
    /\ b.(color) = None
    /\ chartFill (colorMap "IPv6") b = "white"%string.
Proof.
  apply (@outer_header_white_on_other_version defaultFormValues IPv6).
  discriminate.
Defined.

(* ================================================================== *)
(** ** Accepted configurations and the select boxes *)

Lemma calculatePacket_icvs form :
  filter (hasText "ESP ICV") (calculatePacket form)
  = if espTriggered form
    then (if isGcm form || isGmac form then [espIcv 16] else [])
         ++ match hmacIcvSize form.(transform).(espInte) with
            | Some n => [espIcv n]
            | None => []
            end
    else [].
Proof.
  rewrite calculatePacket_parts, !filter_app.
  rewrite lengthAccounting_no_trailer, authenticationHeader_no_trailer by auto.
  rewrite emitted_espSection. cbn [app].
  destruct (espTriggered form); [ | reflexivity ].
  change (?a :: ?b :: ?l) with ([a; b] ++ l).
  rewrite !filter_app, espCipher_no_icv, espGmac_no_icv.
  rewrite emitted_espCombinedIcv, emitted_espHmacIcv.
  destruct (isGcm form || isGmac form), (hmacIcvSize _); reflexivity.
Qed.

(** X13. An accepted configuration has one "ESP Pad" when ESP is used and
    none otherwise, and one "ESP ICV" when the cipher is GCM or an ESP
    integrity algorithm is selected and none otherwise: never two of
    either, as configurations the validator refuses can have. *)
Theorem accepted_single_pad_and_icv (form : IFormState) :
  validateForm form = ""%string ->
  List.length (filter (hasText "ESP Pad") (calculatePacket form))
  = (if espTriggered form then 1 else 0)%nat
  /\ List.length (filter (hasText "ESP ICV") (calculatePacket form))
     = (if isGcm form || negb (inte_eqb form.(transform).(espInte) InteNone)
        then 1 else 0)%nat.
Proof.
  intros V. apply validateForm_acceptedTransform in V. destruct V as [_ T].
  rewrite calculatePacket_pads, calculatePacket_icvs, length_map.
  unfold padBlocks, espTriggered, isGcm, isGmac, acceptedTransform in *.
  destruct (espEncr (transform form)), (espInte (transform form)),
    (ahInte (transform form)); try discriminate T; split; reflexivity.
Qed.

Lemma accepted_single_pad_and_icv_witness :
  List.length (filter (hasText "ESP Pad") (calculatePacket defaultFormValues))
  = 1%nat
  /\ List.length (filter (hasText "ESP ICV")
                    (calculatePacket defaultFormValues)) = 1%nat.
Proof.
  apply (accepted_single_pad_and_icv defaultFormValues). reflexivity.
Defined.

Example refused_two_pads :
  map bytes
    (filter (hasText "ESP Pad")
       (calculatePacket
          (mkForm 100
             (mkTransform AhNone ESP_DES_3DES ESP_GMAC_128_192_256 Tunnel)
             (mkTransport IPv4 false) (mkTunnel false false))))
  = [Int 2; Int 2].
Proof. vm_compute. reflexivity. Qed.

Example refused_two_icvs :
  map bytes
    (filter (hasText "ESP ICV")
       (calculatePacket
          (mkForm 100
             (mkTransform AhNone ESP_GCM_128_192_256 ESP_SHA_HMAC Tunnel)
             (mkTransport IPv4 false) (mkTunnel false false))))
  = [Int 16; Int 12].
Proof. vm_compute. reflexivity. Qed.

(** X14. The select boxes offer every cipher, AH algorithm, mode and IP
    version once.  The list of ESP integrity algorithms has "ESP-SHA-256"
    twice and "ESP-SHA-384" not at all; every name it has is the name of an
    algorithm. *)
Theorem select_box_options :
  (forall e, offered espEncrItems (espEncrName e) = 1%nat)
  /\ (forall a, offered ahHmacItems (ahHmacName a) = 1%nat)
  /\ (forall m, offered tunnelModes (tunnelModeName m) = 1%nat)
  /\ (forall v, offered ipVersions (ipName v) = 1%nat)
  /\ (forall i, offered espHmacItems (espHmacName i)
                = match i with
                  | ESP_SHA_384 => 0
                  | ESP_SHA_256 => 2
                  | _ => 1
                  end%nat)
  /\ Forall (fun name => exists i, name = espHmacName i) espHmacItems.
Proof.
  repeat split.
  - intros []; reflexivity.
  - intros []; reflexivity.
  - intros []; reflexivity.
  - intros []; reflexivity.
  - intros []; reflexivity.
  - unfold espHmacItems.
    repeat constructor;
      [ exists InteNone | exists ESP_MD5_HMAC | exists ESP_SHA_HMAC
      | exists ESP_SHA_256 | exists ESP_SHA_256 | exists ESP_SHA_512
      | exists ESP_GMAC_128_192_256 ]; reflexivity.
Qed.

(** X15. With an ESP integrity algorithm that the select box offers, the
    output never has the 24-byte ICV of SHA-384. *)
Theorem offered_integrity_no_24_byte_icv (form : IFormState) :
  (0 < offered espHmacItems (espHmacName form.(transform).(espInte)))%nat ->
  ~ In (grouped "ESP ICV" 24 "ESP Trailer") (calculatePacket form).
Proof.
  intros O H.
  assert (F : In (grouped "ESP ICV" 24 "ESP Trailer")
                 (filter (hasText "ESP ICV") (calculatePacket form)))
    by (apply filter_In; split; [ exact H | reflexivity ]).
  rewrite calculatePacket_icvs in F.
  destruct (espTriggered form); [ | exact F ].
  destruct (espInte (transform form)), (isGcm form || isGmac form);
    cbn in O, F; try lia;
    repeat (destruct F as [F | F]; [ discriminate F | ]); exact F.
Qed.

Lemma offered_integrity_no_24_byte_icv_witness :
  ~ In (grouped "ESP ICV" 24 "ESP Trailer") (calculatePacket defaultFormValues).
Proof.
  apply (offered_integrity_no_24_byte_icv defaultFormValues).
  vm_compute. reflexivity.
Defined.

(* ================================================================== *)
(** ** The shares of the chart *)

Lemma fold_addDetail_sizes colors ds :
  forall boxes totalSize,
    Forall (fun b => (0 <= b.(size))%num) boxes ->
    Forall nonneg ds ->
    Forall (fun b => (0 <= b.(size))%num)
           (fst (fold_left (addDetail colors) ds (boxes, totalSize))).
Proof.
  induction ds as [| d ds IH]; intros boxes totalSize H Hds; [ exact H | ].
  inversion Hds as [| ? ? Hd Hds']; subst. cbn [fold_left].
  unfold addDetail at 2. apply IH; [ | assumption ].
  unfold nonneg in Hd.
  destruct (groupOf d) as [g|].
  - destruct (findIndex _ boxes).
    + apply Forall_modifyAt; [ exact H | ].
      intros x Hx. unfold addToBox. cbn [size].
      destruct (size x), (bytes d); cbn [nle nadd] in *; lia.
    + apply Forall_app. split; [ exact H | ]. repeat constructor. exact Hd.
  - apply Forall_app. split; [ exact H | ]. repeat constructor. exact Hd.
Qed.

Lemma sizes_below_sum boxes :
  Forall (fun b => (0 <= b.(size))%num) boxes ->
  (0 <= sumSizes boxes)%num
  /\ Forall (fun b => (b.(size) <= sumSizes boxes)%num) boxes.
Proof.
  induction 1 as [| b boxes Hb H [IH1 IH2]].
  - split; [ cbn; lia | constructor ].
  - unfold sumSizes in *. cbn [fold_right].
    revert IH1 IH2.
    generalize (fold_right (fun b acc => (size b + acc)%num) (Int 0) boxes).
    intros total IH1 IH2.
    destruct (size b) as [sb|] eqn:Sb; [ | destruct Hb ].
    destruct total as [t|]; [ | destruct IH1 ].
    cbn [nle nadd] in *. split; [ lia | ].
    constructor; [ rewrite Sb; cbn [nle]; lia | ].
    eapply Forall_impl; [ | exact IH2 ]. cbn beta. intros a Ha.
    destruct (size a); cbn [nle] in *; lia.
Qed.

(** X16. For an integer packet size that the validator accepts the total
    size is positive and the size of every box lies between 0 and the
    total, so that the share [box.size / totalSize] the chart is drawn from
    is a fraction between 0 and 1. *)
Theorem chart_shares (form : IFormState) (z : Z) :
  validateForm form = ""%string ->
  form.(packetSize) = Int z ->
  (0 < snd (buildBoxes (colorMap (ipName form.(transport).(ipProtocol)))
                       (calculatePacket form)))%num
  /\ Forall (fun b =>
               (0 <= b.(size)
                <= snd (buildBoxes
                          (colorMap (ipName form.(transport).(ipProtocol)))
                          (calculatePacket form)))%num)
            (appBoxes form).
Proof.
  intros V E.
  pose proof (fold_addDetail_sums
                (colorMap (ipName form.(transport).(ipProtocol)))
                (calculatePacket form) [] 0) as [T S].
  fold (buildBoxes (colorMap (ipName form.(transport).(ipProtocol)))
          (calculatePacket form)) in T, S.
  unfold sumSizes in S at 2. cbn [fold_right] in S.
  rewrite nadd_0_l in T, S.
  destruct (accepted_total_bounds form V E) as (total & Et & B).
  pose proof (valid_packetSize form V E) as P.
  assert (N : Forall (fun b => (0 <= size b)%num) (appBoxes form)).
  { unfold appBoxes, buildBoxes. apply fold_addDetail_sizes; [ constructor | ].
    apply (calculatePacket_nonneg form V E). }
  destruct (sizes_below_sum N) as [_ U].
  unfold appBoxes in *. rewrite T, Et. rewrite S, Et in U.
  assert (20 <= ipHeaderSize form)
    by (rewrite ipHeaderSize_headerSize;
        destruct (ipProtocol (transport form)); cbn; lia).
  split; [ cbn [nlt]; lia | ].
  rewrite Forall_forall in N, U. apply Forall_forall. intros b Hb.
  split; [ apply (N b Hb) | apply (U b Hb) ].
Qed.

Lemma chart_shares_witness :
  (0 < snd (buildBoxes (colorMap "IPv4") (calculatePacket defaultFormValues)))%num
  /\ Forall (fun b =>
               (0 <= b.(size)
                <= snd (buildBoxes (colorMap "IPv4")
                          (calculatePacket defaultFormValues)))%num)
            (appBoxes defaultFormValues).
Proof.
  apply (@chart_shares defaultFormValues 100); reflexivity.
Defined.
